(** * Inventory service: a shallow embedding of the Express/SQLite server

    The server keeps two tables, [Categories] and [Products], in one SQLite
    database and exposes seven routes over them.  Every route handler is a
    short sequence of [db.run] / [db.all] calls whose callbacks decide the
    HTTP response.  The embedding below follows that shape:

    - [JS]       the few JavaScript primitives the handlers rely on
                 (truthiness, [String.prototype.includes], [parseInt],
                 [parseFloat]);
    - [Sqlite]   the store: rows, tables, the statements the handlers
                 issue and what each of them does to the tables;
    - [Server]   the handlers, written in a small state monad whose state
                 is the database together with a schedule of store faults.

    Modelling boundaries.  Numbers are exact: integers are [Z] and reals
    are [Q] (SQLite holds 64-bit integers and IEEE doubles; values beyond
    those ranges are outside the model).  Request fields are taken at the
    type the schema gives them, except where a handler itself inspects the
    raw value (the listing bounds and the category name, which are
    optional strings).  Requests are handled one at a time. *)

From Stdlib Require Import ZArith QArith List String Ascii Bool Lia.
From Stdlib Require Import Sorted Permutation.
Import ListNotations.

Local Open Scope string_scope.
Local Open Scope Z_scope.

(* ===================================================================== *)
(** ** JavaScript primitives *)
(* ===================================================================== *)

Module JS.

(** A JavaScript number as far as the handlers can observe it. *)
Inductive number :=
| NaN
| Infinity (negative : bool)
| Num (q : Q).

(** [if (x)] and [!x] on a query or body field that is either missing
    ([undefined]) or a string: only the empty string is falsy. *)
Definition truthy (x : option string) : bool :=
  match x with
  | None => false
  | Some s => negb (String.eqb s "")
  end.

(** [s.includes(sub)] *)
Fixpoint includes (s sub : string) : bool :=
  prefix sub s ||
  match s with
  | EmptyString => false
  | String _ rest => includes rest sub
  end.

(** White space that [parseInt] and [parseFloat] skip: tab, line feed,
    vertical tab, form feed, carriage return and space (the characters
    beyond ASCII that JavaScript also skips are left out). *)
Definition is_space (c : ascii) : bool :=
  let n := nat_of_ascii c in
  ((9 <=? n) && (n <=? 13) || (n =? 32))%nat.

(** Value of a character as a digit in base 16 (and so in base 10). *)
Definition hex_val (c : ascii) : option Z :=
  let n := nat_of_ascii c in
  if ((48 <=? n) && (n <=? 57))%nat then Some (Z.of_nat n - 48)
  else if ((97 <=? n) && (n <=? 102))%nat then Some (Z.of_nat n - 87)
  else if ((65 <=? n) && (n <=? 70))%nat then Some (Z.of_nat n - 55)
  else None.

Definition digit_in (radix : Z) (c : ascii) : option Z :=
  match hex_val c with
  | Some v => if v <? radix then Some v else None
  | None => None
  end.

Fixpoint trimStart (s : string) : string :=
  match s with
  | String c rest => if is_space c then trimStart rest else s
  | EmptyString => s
  end.

(** Longest prefix of digits in [radix]: its value (continuing from
    [acc]), how many digits were read, and the rest of the input. *)
Fixpoint take_digits (radix : Z) (s : string) (acc : Z) (n : nat)
  : Z * nat * string :=
  match s with
  | String c rest =>
      match digit_in radix c with
      | Some v => take_digits radix rest (acc * radix + v) (S n)
      | None => (acc, n, s)
      end
  | EmptyString => (acc, n, s)
  end.

Definition strip_sign (s : string) : bool * string :=
  match s with
  | String "-" rest => (true, rest)
  | String "+" rest => (false, rest)
  | _ => (false, s)
  end.

Definition signed (negative : bool) (q : Q) : Q :=
  if negative then Qopp q else q.

(** [parseInt(s)] with no radix argument. *)
Definition parseInt (s : string) : number :=
  let '(negative, t) := strip_sign (trimStart s) in
  let '(radix, t) :=
    match t with
    | String "0" (String "x" rest) => (16, rest)
    | String "0" (String "X" rest) => (16, rest)
    | _ => (10, t)
    end in
  let '(v, n, _) := take_digits radix t 0 0 in
  match n with
  | O => NaN
  | S _ => Num (signed negative (inject_Z v))
  end.

(** The exponent part [e[+-]ddd] if one follows, else 0. *)
Definition exponent (s : string) : Z :=
  let after_e (rest : string) :=
    let '(negative, t) := strip_sign rest in
    let '(v, n, _) := take_digits 10 t 0 0 in
    match n with
    | O => 0
    | S _ => if negative then - v else v
    end in
  match s with
  | String "e" rest => after_e rest
  | String "E" rest => after_e rest
  | _ => 0
  end.

(** [parseFloat(s)]: the longest prefix that is a decimal literal.  The
    value is the literal's exact value (JavaScript rounds it to the
    nearest double). *)
Definition parseFloat (s : string) : number :=
  let '(negative, t) := strip_sign (trimStart s) in
  if prefix "Infinity" t then Infinity negative else
  let '(ip, ni, t) := take_digits 10 t 0 0 in
  let '(fp, nf, t) :=
    match t with
    | String "." rest => take_digits 10 rest 0 0
    | _ => (0, O, t)
    end in
  match (ni + nf)%nat with
  | O => NaN
  | S _ =>
      let mantissa :=
        (inject_Z ip + inject_Z fp / inject_Z (10 ^ Z.of_nat nf))%Q in
      Num (signed negative (mantissa * Qpower (10 # 1) (exponent t))%Q)
  end.

End JS.

(* ===================================================================== *)
(** ** The store: rows, tables and statements *)
(* ===================================================================== *)

(** A row of [Categories (category_id INTEGER PRIMARY KEY AUTOINCREMENT,
    category_name TEXT NOT NULL UNIQUE)]. *)
Module Category.
Record row := {
  category_id : Z;
  category_name : string
}.
End Category.

(** A row of [Products (product_id INTEGER PRIMARY KEY AUTOINCREMENT,
    product_name TEXT NOT NULL, price REAL NOT NULL,
    stock_quantity INTEGER NOT NULL, category_id INTEGER)].  The foreign
    key on [category_id] is declared, but the server never switches
    foreign-key enforcement on, so the store does not check it. *)
Module Product.
Record row := {
  product_id : Z;
  product_name : string;
  price : Q;
  stock_quantity : Z;
  category_id : option Z
}.
End Product.

(** A row of the product listing: the select list
    [p.product_id, p.product_name, p.price, p.stock_quantity,
    c.category_name]. *)
Module Listing.
Record row := {
  product_id : Z;
  product_name : string;
  price : Q;
  stock_quantity : Z;
  category_name : string
}.
End Listing.

Module Sqlite.

(** The tables and the two AUTOINCREMENT counters ([sqlite_sequence]).
    Rows are kept in insertion order. *)
Record Tables := {
  Categories : list Category.row;
  Products : list Product.row;
  seq_Categories : Z;
  seq_Products : Z
}.

(** The connection: the current tables, and, while a transaction is open,
    the tables as they were at [BEGIN]. *)
Record Database := {
  tables : Tables;
  txn : option Tables
}.

(** What a [db.run] callback sees: [err], [this.lastID], [this.changes]. *)
Record RunResult := {
  err : option string;
  lastID : Z;
  changes : Z
}.

Definition ok (last_id n : Z) : RunResult :=
  {| err := None; lastID := last_id; changes := n |}.

Definition failed (message : string) : RunResult :=
  {| err := Some message; lastID := 0; changes := 0 |}.

(** The four comparisons the listing can put in its WHERE clause. *)
Inductive Clause :=
| price_ge
| price_le
| stock_ge
| stock_le.

Definition clause_sql (c : Clause) : string :=
  match c with
  | price_ge => "p.price >= ?"
  | price_le => "p.price <= ?"
  | stock_ge => "p.stock_quantity >= ?"
  | stock_le => "p.stock_quantity <= ?"
  end.

(** The statements the server passes to [db.run]. *)
Inductive Stmt :=
| BEGIN_TRANSACTION
| ROLLBACK
| COMMIT
  (** INSERT INTO Categories (category_name) VALUES (?) *)
| INSERT_Categories (name : string)
  (** INSERT INTO Products (product_name, price, stock_quantity,
      category_id) VALUES (?, ?, ?, ?) *)
| INSERT_Products (name : string) (price : Q) (quantity : Z)
                  (category_id : option Z)
  (** UPDATE Products SET product_name = ?, price = ?,
      stock_quantity = ?, category_id = ? WHERE product_id = ? *)
| UPDATE_Products (name : string) (price : Q) (quantity : Z)
                  (category_id : option Z) (id : Z)
  (** DELETE FROM Products WHERE product_id = ? *)
| DELETE_Products (id : Z)
  (** UPDATE Products SET stock_quantity = stock_quantity - ?
      WHERE product_id = ? AND stock_quantity >= ? *)
| UPDATE_stock_minus (amount id at_least : Z)
  (** UPDATE Products SET stock_quantity = stock_quantity + ?
      WHERE product_id = ? *)
| UPDATE_stock_plus (amount id : Z).

(** *** Relational operators *)

(** [UPDATE t SET ... WHERE ...]: the new table and the number of rows
    the WHERE clause matched. *)
Definition update {A} (where_ : A -> bool) (set : A -> A) (t : list A)
  : list A * Z :=
  (map (fun r => if where_ r then set r else r) t,
   Z.of_nat (List.length (filter where_ t))).

(** [DELETE FROM t WHERE ...] *)
Definition delete {A} (where_ : A -> bool) (t : list A) : list A * Z :=
  (filter (fun r => negb (where_ r)) t,
   Z.of_nat (List.length (filter where_ t))).

(** [ORDER BY key], comparing text bytewise (the BINARY collation). *)
Fixpoint insert_by {A} (key : A -> string) (x : A) (l : list A) : list A :=
  match l with
  | [] => [x]
  | y :: l' =>
      if String.leb (key x) (key y) then x :: y :: l'
      else y :: insert_by key x l'
  end.

Definition order_by {A} (key : A -> string) (l : list A) : list A :=
  fold_right (insert_by key) [] l.

(** The rowid AUTOINCREMENT hands out: one more than the largest rowid
    the table holds or has ever held. *)
Definition next_rowid (seq : Z) (ids : list Z) : Z :=
  Z.max seq (fold_right Z.max 0 ids) + 1.

(** *** Row updates *)

Definition set_stock (q : Z) (p : Product.row) : Product.row :=
  {| Product.product_id := Product.product_id p;
     Product.product_name := Product.product_name p;
     Product.price := Product.price p;
     Product.stock_quantity := q;
     Product.category_id := Product.category_id p |}.

Definition set_fields (name : string) (price : Q) (quantity : Z)
  (category_id : option Z) (p : Product.row) : Product.row :=
  {| Product.product_id := Product.product_id p;
     Product.product_name := name;
     Product.price := price;
     Product.stock_quantity := quantity;
     Product.category_id := category_id |}.

Definition has_id (id : Z) (p : Product.row) : bool :=
  Product.product_id p =? id.

Definition with_products (t : Tables) (ps : list Product.row) : Tables :=
  {| Categories := Categories t;
     Products := ps;
     seq_Categories := seq_Categories t;
     seq_Products := seq_Products t |}.

Definition unique_failed : string :=
  "SQLITE_CONSTRAINT: UNIQUE constraint failed: Categories.category_name".

(** *** Statements on the tables *)

Definition exec_dml (s : Stmt) (t : Tables) : Tables * RunResult :=
  match s with
  | INSERT_Categories name =>
      if existsb (fun c => String.eqb (Category.category_name c) name)
                 (Categories t)
      then (t, failed unique_failed)
      else
        let id := next_rowid (seq_Categories t)
                             (map Category.category_id (Categories t)) in
        ({| Categories :=
              Categories t ++
              [{| Category.category_id := id;
                  Category.category_name := name |}];
            Products := Products t;
            seq_Categories := id;
            seq_Products := seq_Products t |},
         ok id 1)
  | INSERT_Products name price quantity category_id =>
      let id := next_rowid (seq_Products t)
                           (map Product.product_id (Products t)) in
      ({| Categories := Categories t;
          Products :=
            Products t ++
            [{| Product.product_id := id;
                Product.product_name := name;
                Product.price := price;
                Product.stock_quantity := quantity;
                Product.category_id := category_id |}];
          seq_Categories := seq_Categories t;
          seq_Products := id |},
       ok id 1)
  | UPDATE_Products name price quantity category_id id =>
      let '(ps, n) :=
        update (has_id id) (set_fields name price quantity category_id)
               (Products t) in
      (with_products t ps, ok 0 n)
  | DELETE_Products id =>
      let '(ps, n) := delete (has_id id) (Products t) in
      (with_products t ps, ok 0 n)
  | UPDATE_stock_minus amount id at_least =>
      let '(ps, n) :=
        update (fun p => has_id id p && (at_least <=? Product.stock_quantity p))
               (fun p => set_stock (Product.stock_quantity p - amount) p)
               (Products t) in
      (with_products t ps, ok 0 n)
  | UPDATE_stock_plus amount id =>
      let '(ps, n) :=
        update (has_id id)
               (fun p => set_stock (Product.stock_quantity p + amount) p)
               (Products t) in
      (with_products t ps, ok 0 n)
  | _ => (t, ok 0 0)
  end.

(** One statement on the connection.  [BEGIN] remembers the tables,
    [ROLLBACK] puts them back, [COMMIT] forgets them; every other
    statement works on the current tables, inside a transaction or not. *)
Definition exec (s : Stmt) (d : Database) : Database * RunResult :=
  match s with
  | BEGIN_TRANSACTION =>
      match txn d with
      | Some _ =>
          (d, failed "SQLITE_ERROR: cannot start a transaction within a transaction")
      | None => ({| tables := tables d; txn := Some (tables d) |}, ok 0 0)
      end
  | ROLLBACK =>
      match txn d with
      | Some saved => ({| tables := saved; txn := None |}, ok 0 0)
      | None =>
          (d, failed "SQLITE_ERROR: cannot rollback - no transaction is active")
      end
  | COMMIT =>
      match txn d with
      | Some _ => ({| tables := tables d; txn := None |}, ok 0 0)
      | None =>
          (d, failed "SQLITE_ERROR: cannot commit - no transaction is active")
      end
  | _ =>
      let '(t, r) := exec_dml s (tables d) in
      ({| tables := t; txn := txn d |}, r)
  end.

(** *** Queries *)

(** SELECT * FROM Categories ORDER BY category_name *)
Definition select_categories (t : Tables) : list Category.row :=
  order_by Category.category_name (Categories t).

(** [FROM Products p JOIN Categories c ON p.category_id = c.category_id]
    with the listing's select list. *)
Definition joined (p : Product.row) (c : Category.row) : Listing.row :=
  {| Listing.product_id := Product.product_id p;
     Listing.product_name := Product.product_name p;
     Listing.price := Product.price p;
     Listing.stock_quantity := Product.stock_quantity p;
     Listing.category_name := Category.category_name c |}.

Definition on_category (p : Product.row) (c : Category.row) : bool :=
  match Product.category_id p with
  | Some k => k =? Category.category_id c
  | None => false
  end.

Definition join (t : Tables) : list Listing.row :=
  flat_map (fun p => map (joined p) (filter (on_category p) (Categories t)))
           (Products t).

(** A bound parameter compared with a column value.  SQLite stores a NaN
    parameter as NULL, and a comparison with NULL is never true. *)
Definition ge (x : Q) (v : JS.number) : bool :=
  match v with
  | JS.NaN => false
  | JS.Infinity negative => negative
  | JS.Num q => Qle_bool q x
  end.

Definition le (x : Q) (v : JS.number) : bool :=
  match v with
  | JS.NaN => false
  | JS.Infinity negative => negb negative
  | JS.Num q => Qle_bool x q
  end.

Definition holds (r : Listing.row) (cv : Clause * JS.number) : bool :=
  match fst cv with
  | price_ge => ge (Listing.price r) (snd cv)
  | price_le => le (Listing.price r) (snd cv)
  | stock_ge => ge (inject_Z (Listing.stock_quantity r)) (snd cv)
  | stock_le => le (inject_Z (Listing.stock_quantity r)) (snd cv)
  end.

(** The listing query: the join, [WHERE c1 AND c2 AND ...] with the i-th
    [?] bound to the i-th parameter, [ORDER BY p.product_name]. *)
Definition select_products (whereClauses : list Clause)
  (params : list JS.number) (t : Tables) : list Listing.row :=
  order_by Listing.product_name
    (filter (fun r => forallb (holds r) (combine whereClauses params))
            (join t)).

End Sqlite.

(* ===================================================================== *)
(** ** The server: driver calls and route handlers *)
(* ===================================================================== *)

Module Server.
Import Sqlite.

(** What a handler runs against: the connection, and for each statement
    still to come whether the store will fail it on its own account
    (I/O error, busy database, ...) and with which message.  A schedule
    that has run out means no further fault. *)
Record World := {
  db : Database;
  faults : list (option string)
}.

Definition M (A : Type) : Type := World -> A * World.

Definition ret {A} (a : A) : M A := fun w => (a, w).

Definition bind {A B} (m : M A) (k : A -> M B) : M B :=
  fun w => let '(a, w') := m w in k a w'.

Notation "x <- m ;; k" := (bind m (fun x => k))
  (at level 61, m at next level, right associativity).

Definition next_fault : M (option string) := fun w =>
  match faults w with
  | [] => (None, w)
  | f :: rest => (f, {| db := db w; faults := rest |})
  end.

(** [db.run(sql, params, callback)]: the value is what the callback gets. *)
Definition db_run (s : Stmt) : M RunResult :=
  f <- next_fault ;;
  match f with
  | Some message => ret (failed message)
  | None => fun w =>
      let '(d, r) := exec s (db w) in (r, {| db := d; faults := faults w |})
  end.

(** [db.all(sql, params, callback)]: the callback's [err] and [rows]. *)
Definition db_all {A} (query : Tables -> list A)
  : M (option string * list A) :=
  f <- next_fault ;;
  match f with
  | Some message => ret (Some message, [])
  | None => fun w => ((None, query (tables (db w))), w)
  end.

(** The JSON bodies the handlers send. *)
Inductive Body :=
| categories_json (rows : list Category.row)
| products_json (rows : list Listing.row)
| error_json (error : string)
| message_json (message : string)
| message_error_json (message error : string)
| id_name_json (id : Z) (name : string)
| id_json (id : Z)
| message_changes_json (message : string) (changes : Z).

Record Response := {
  status : Z;
  body : Body
}.

(** [res.status(code).json(body)]; a bare [res.json(body)] is a 200. *)
Definition json (code : Z) (b : Body) : M Response :=
  ret {| status := code; body := b |}.

(** *** GET /api/categories *)
Definition get_categories : M Response :=
  r <- db_all select_categories ;;
  match fst r with
  | Some message => json 500 (error_json message)
  | None => json 200 (categories_json (snd r))
  end.

(** *** GET /api/products *)

(** One [if (bound) { whereClauses.push(...); params.push(parse(bound)) }]. *)
Definition push_bound (value : option string) (c : Clause)
  (parse : string -> JS.number) (acc : list Clause * list JS.number)
  : list Clause * list JS.number :=
  match value with
  | Some s =>
      if JS.truthy value
      then ((fst acc ++ [c])%list, (snd acc ++ [parse s])%list)
      else acc
  | None => acc
  end.

(** [whereClauses] and [params] after the four tests. *)
Definition build_filter (minPrice maxPrice minQty maxQty : option string)
  : list Clause * list JS.number :=
  push_bound maxQty stock_le JS.parseInt
    (push_bound minQty stock_ge JS.parseInt
       (push_bound maxPrice price_le JS.parseFloat
          (push_bound minPrice price_ge JS.parseFloat ([], [])))).

(** The text handed to [db.all]. *)
Definition products_sql (whereClauses : list Clause) : string :=
  "SELECT p.product_id, p.product_name, p.price, p.stock_quantity, c.category_name FROM Products p JOIN Categories c ON p.category_id = c.category_id"
  ++ (if (0 <? List.length whereClauses)%nat
      then " WHERE " ++ String.concat " AND " (map clause_sql whereClauses)
      else "")
  ++ " ORDER BY p.product_name".

Definition get_products (minPrice maxPrice minQty maxQty : option string)
  : M Response :=
  let '(whereClauses, params) :=
    build_filter minPrice maxPrice minQty maxQty in
  r <- db_all (select_products whereClauses params) ;;
  match fst r with
  | Some message => json 500 (error_json message)
  | None => json 200 (products_json (snd r))
  end.

(** *** POST /api/categories *)

(** The INSERT and its callback: what the handler does once it has a
    name. *)
Definition createCategory (name : string) : M Response :=
  r <- db_run (INSERT_Categories name) ;;
  match err r with
  | Some message =>
      if JS.includes message "UNIQUE constraint failed"
      then json 409 (message_json "Category already exists.")
      else json 500 (error_json message)
  | None => json 201 (id_name_json (lastID r) name)
  end.

Definition post_categories (name : option string) : M Response :=
  match name with
  | Some s =>
      if negb (JS.truthy name)
      then json 400 (message_json "Category name is required")
      else createCategory s
  | None => json 400 (message_json "Category name is required")
  end.

(** *** POST /api/products *)
Definition post_products (name : string) (price : Q) (quantity : Z)
  (category_id : option Z) : M Response :=
  r <- db_run (INSERT_Products name price quantity category_id) ;;
  match err r with
  | Some message => json 500 (error_json message)
  | None => json 201 (id_json (lastID r))
  end.

(** *** PUT /api/products/:id *)
Definition put_products (id : Z) (name : string) (price : Q) (quantity : Z)
  (category_id : option Z) : M Response :=
  r <- db_run (UPDATE_Products name price quantity category_id id) ;;
  match err r with
  | Some message => json 500 (error_json message)
  | None =>
      if changes r =? 0
      then json 404 (message_json "Product not found")
      else json 200 (message_changes_json "Updated successfully" (changes r))
  end.

(** *** DELETE /api/products/:id *)
Definition delete_products (id : Z) : M Response :=
  r <- db_run (DELETE_Products id) ;;
  match err r with
  | Some message => json 500 (error_json message)
  | None =>
      if changes r =? 0
      then json 404 (message_json "Product not found")
      else json 200 (message_changes_json "Deleted successfully" (changes r))
  end.

(** *** POST /api/inventory/adjust *)

Definition insufficient_message : string :=
  "Transaction rolled back: Insufficient stock or source product not found.".

Definition destination_message : string :=
  "Transaction rolled back: Destination product not found.".

(** [err || this.changes === 0] *)
Definition err_or_no_changes (r : RunResult) : bool :=
  match err r with
  | Some _ => true
  | None => changes r =? 0
  end.

(** [err ? err.message : fallback] *)
Definition message_or (r : RunResult) (fallback : string) : string :=
  match err r with
  | Some message => message
  | None => fallback
  end.

Definition post_inventory_adjust (from_product_id to_product_id quantity : Z)
  : M Response :=
  r0 <- db_run BEGIN_TRANSACTION ;;
  match err r0 with
  | Some message =>
      json 500 (error_json ("Failed to begin transaction: " ++ message))
  | None =>
      r1 <- db_run (UPDATE_stock_minus quantity from_product_id quantity) ;;
      if err_or_no_changes r1 then
        _ <- db_run ROLLBACK ;;
        json 400 (message_error_json insufficient_message
                    (message_or r1 "No changes made (Check stock and product ID)"))
      else
        r2 <- db_run (UPDATE_stock_plus quantity to_product_id) ;;
        if err_or_no_changes r2 then
          _ <- db_run ROLLBACK ;;
          json 400 (message_error_json destination_message
                      (message_or r2 "No changes made to destination product"))
        else
          r3 <- db_run COMMIT ;;
          match err r3 with
          | Some message =>
              json 500 (message_error_json
                          "Commit failed (data consistency risk)." message)
          | None =>
              json 200 (message_json
                          "Inventory adjustment successful (Atomic Transaction).")
          end
  end.

(** *** The routes *)
Inductive Request :=
| GET_categories
| GET_products (minPrice maxPrice minQty maxQty : option string)
| POST_categories (name : option string)
| POST_products (name : string) (price : Q) (quantity : Z)
                (category_id : option Z)
| PUT_products (id : Z) (name : string) (price : Q) (quantity : Z)
               (category_id : option Z)
| DELETE_products (id : Z)
| POST_inventory_adjust (from_product_id to_product_id quantity : Z).

Definition handle (req : Request) : M Response :=
  match req with
  | GET_categories => get_categories
  | GET_products minPrice maxPrice minQty maxQty =>
      get_products minPrice maxPrice minQty maxQty
  | POST_categories name => post_categories name
  | POST_products name price quantity category_id =>
      post_products name price quantity category_id
  | PUT_products id name price quantity category_id =>
      put_products id name price quantity category_id
  | DELETE_products id => delete_products id
  | POST_inventory_adjust from_product_id to_product_id quantity =>
      post_inventory_adjust from_product_id to_product_id quantity
  end.

(** *** Vocabulary for the statements below *)

(** The products stored in a world, and the stock of the product with a
    given id (of the first such row, should the key not be unique). *)
Definition products (w : World) : list Product.row :=
  Products (tables (db w)).

Definition categories (w : World) : list Category.row :=
  Categories (tables (db w)).

Definition stock_of (id : Z) (ps : list Product.row) : option Z :=
  option_map Product.stock_quantity (find (has_id id) ps).

(** The PRIMARY KEY and UNIQUE constraints of the schema. *)
Definition primary_key (ps : list Product.row) : Prop :=
  NoDup (map Product.product_id ps).

Definition unique_names (cs : list Category.row) : Prop :=
  NoDup (map Category.category_name cs).

(** No transaction is open on the connection. *)
Definition idle (w : World) : Prop := txn (db w) = None.

(** The store raises no fault of its own on the next [n] statements. *)
Definition calm (n : nat) (w : World) : Prop :=
  Forall (fun f => f = None) (firstn n (faults w)).

(** The response a handler sends from a world, and the world it leaves. *)
Definition reply {A} (m : M A) (w : World) : A := fst (m w).

Definition after {A} (m : M A) (w : World) : World := snd (m w).

(** The world once a statement has gone through and left database [d]. *)
Definition advance (d : Database) (w : World) : World :=
  {| db := d; faults := tl (faults w) |}.


(** Number of product rows with a given id. *)
Definition rows_with_id (id : Z) (ps : list Product.row) : Z :=
  Z.of_nat (List.length (filter (has_id id) ps)).

(** The debit's WHERE clause, and the products table after the debit
    statement and after the credit statement of a transfer. *)
Definition in_stock (q id : Z) (p : Product.row) : bool :=
  has_id id p && (q <=? Product.stock_quantity p).

Definition debited (q id : Z) (ps : list Product.row) : list Product.row :=
  map (fun p => if in_stock q id p
                then set_stock (Product.stock_quantity p - q) p else p) ps.

Definition credited (q id : Z) (ps : list Product.row) : list Product.row :=
  map (fun p => if has_id id p
                then set_stock (Product.stock_quantity p + q) p else p) ps.

Definition rows_in_stock (q id : Z) (ps : list Product.row) : Z :=
  Z.of_nat (List.length (filter (in_stock q id) ps)).

(** The three outcomes of a transfer the store lets through. *)
Definition insufficient_reply : Response :=
  {| status := 400;
     body := message_error_json insufficient_message
               "No changes made (Check stock and product ID)" |}.

Definition destination_reply : Response :=
  {| status := 400;
     body := message_error_json destination_message
               "No changes made to destination product" |}.

Definition success_reply : Response :=
  {| status := 200;
     body := message_json
               "Inventory adjustment successful (Atomic Transaction)." |}.


(** A listing row passes a bound: a missing or empty bound lets every row
    through, any other value is parsed and compared. *)
Definition within (value : option string) (c : Clause)
  (parse : string -> JS.number) (r : Listing.row) : Prop :=
  match value with
  | Some s => s = "" \/ holds r (c, parse s) = true
  | None => True
  end.

(** The answer to a category whose name is taken. *)
Definition conflict_reply : Response :=
  {| status := 409; body := message_json "Category already exists." |}.

(** The answer to an update or delete as a function of the store's fault,
    if any, and of the number of rows the statement changed. *)
Definition by_rows_affected (fault : option string) (n : Z) (done : string)
  : Response :=
  match fault with
  | Some message => {| status := 500; body := error_json message |}
  | None =>
      if n =? 0
      then {| status := 404; body := message_json "Product not found" |}
      else {| status := 200; body := message_changes_json done n |}
  end.

(** Both constraints on the tables of a database. *)
Definition constrained (t : Tables) : Prop :=
  primary_key (Products t) /\ unique_names (Categories t).

(** Product ids a listing response shows. *)
Definition listed_ids (r : Response) : list Z :=
  match body r with
  | products_json rows => map Listing.product_id rows
  | _ => []
  end.

(** Ascending by a text key. *)
Definition ascending {A} (key : A -> string) (l : list A) : Prop :=
  Sorted (fun a b => String.leb (key a) (key b) = true) l.

(** Every stock quantity is non-negative. *)
Definition stock_nonneg (ps : list Product.row) : Prop :=
  Forall (fun p => 0 <= Product.stock_quantity p) ps.

(** The quantity a request asks the store to write or move, if any. *)
Definition quantity_of (req : Request) : option Z :=
  match req with
  | POST_products _ _ quantity _ => Some quantity
  | PUT_products _ _ _ quantity _ => Some quantity
  | POST_inventory_adjust _ _ quantity => Some quantity
  | _ => None
  end.

Definition world (t : Tables) : World :=
  {| db := {| tables := t; txn := None |}; faults := [] |}.

(** The tables right after the schema has been created. *)
Definition created : Tables :=
  {| Categories := []; Products := [];
     seq_Categories := 0; seq_Products := 0 |}.

(** Serving requests one after the other. *)
Definition serve (reqs : list Request) (w : World) : World :=
  fold_left (fun w0 req => after (handle req) w0) reqs w.

End Server.

(** ** Sample data *)

Module Samples.
Import Sqlite Server.

Definition product (id : Z) (name : string) (price : Q) (stock : Z)
  (cat : option Z) : Product.row :=
  {| Product.product_id := id;
     Product.product_name := name;
     Product.price := price;
     Product.stock_quantity := stock;
     Product.category_id := cat |}.

Definition category (id : Z) (name : string) : Category.row :=
  {| Category.category_id := id; Category.category_name := name |}.

(** Two products with stock 10 and 5, as in the transfer scenarios. *)
Definition shop : Tables :=
  {| Categories := [category 1 "Electronics"; category 2 "Books"];
     Products := [product 1 "Laptop" (69999 # 100) 10 (Some 1);
                  product 2 "Novel" (1450 # 100) 5 (Some 2)];
     seq_Categories := 2;
     seq_Products := 2 |}.

(** The same shop with a third product that has no category. *)
Definition shop_with_loose_item : Tables :=
  {| Categories := Categories shop;
     Products := (Products shop ++ [product 3 "Apples" (99 # 100) 200 None])%list;
     seq_Categories := 2;
     seq_Products := 3 |}.

End Samples.

(* ===================================================================== *)
(** ** Start-up: schema creation and seed data *)
(* ===================================================================== *)

Module Startup.
Import Sqlite.

(** Which of the schema's objects the database file holds. *)
Record Schema := {
  has_Categories : bool;
  has_Products : bool;
  has_idx_product_name : bool;
  has_idx_price_qty : bool
}.

(** The database file: its schema and the rows of its tables (a table
    that does not exist has none). *)
Record File := {
  schema : Schema;
  data : Tables
}.

(** A line written to the console. *)
Inductive Line :=
| console_log (text : string)
| console_error (text : string).

(** [ifExists(err, tableName)], the callback of every start-up statement:
    silent on an "already exists" error, the message of any other error
    to [console.error], a line naming the object otherwise. *)
Definition ifExists (err : option string) (tableName : string) : list Line :=
  match err with
  | Some message =>
      if JS.includes message "already exists" then []
      else [console_error message]
  | None => [console_log ("Table/Data '" ++ tableName ++ "' is ready.")]
  end.

(** The values of one seeded product: name, price, stock, category. *)
Definition Seed : Type := string * Q * Z * option Z.

(** The statements of [db.serialize]. *)
Inductive Setup :=
  (** CREATE TABLE IF NOT EXISTS Categories (...) *)
| CREATE_TABLE_Categories
  (** CREATE TABLE IF NOT EXISTS Products (...) *)
| CREATE_TABLE_Products
  (** CREATE INDEX IF NOT EXISTS idx_product_name ON Products
      (product_name) *)
| CREATE_INDEX_product_name
  (** CREATE INDEX IF NOT EXISTS idx_price_qty ON Products
      (price, stock_quantity) *)
| CREATE_INDEX_price_qty
  (** INSERT OR IGNORE INTO Categories (category_name) VALUES (?), ... *)
| INSERT_OR_IGNORE_Categories (names : list string)
  (** INSERT OR IGNORE INTO Products (product_name, price,
      stock_quantity, category_id) VALUES (?, ?, ?, ?), ... *)
| INSERT_OR_IGNORE_Products (rows : list Seed).

(** One row of an INSERT OR IGNORE: the row is added unless a constraint
    stops it, in which case it is skipped without an error.  Only the
    UNIQUE name of a category can stop a row; [Products] has no
    constraint a seeded row can fail. *)
Definition or_ignore_category (t : Tables) (name : string) : Tables :=
  fst (exec_dml (INSERT_Categories name) t).

Definition or_ignore_product (t : Tables) (r : Seed) : Tables :=
  let '(name, price, quantity, category_id) := r in
  fst (exec_dml (INSERT_Products name price quantity category_id) t).

Definition with_schema (f : File) (s : Schema) : File :=
  {| schema := s; data := data f |}.

Definition no_such_table (name : string) : string :=
  "SQLITE_ERROR: no such table: " ++ name.

(** One start-up statement on the file: the file afterwards and the
    error, if any. *)
Definition exec_setup (s : Setup) (f : File) : File * option string :=
  let sc := schema f in
  match s with
  | CREATE_TABLE_Categories =>
      if has_Categories sc then (f, None)
      else
        ({| schema := {| has_Categories := true;
                         has_Products := has_Products sc;
                         has_idx_product_name := has_idx_product_name sc;
                         has_idx_price_qty := has_idx_price_qty sc |};
            data := {| Categories := [];
                       Products := Products (data f);
                       seq_Categories := 0;
                       seq_Products := seq_Products (data f) |} |},
         None)
  | CREATE_TABLE_Products =>
      if has_Products sc then (f, None)
      else
        ({| schema := {| has_Categories := has_Categories sc;
                         has_Products := true;
                         has_idx_product_name := has_idx_product_name sc;
                         has_idx_price_qty := has_idx_price_qty sc |};
            data := {| Categories := Categories (data f);
                       Products := [];
                       seq_Categories := seq_Categories (data f);
                       seq_Products := 0 |} |},
         None)
  | CREATE_INDEX_product_name =>
      if has_Products sc
      then (with_schema f
              {| has_Categories := has_Categories sc;
                 has_Products := true;
                 has_idx_product_name := true;
                 has_idx_price_qty := has_idx_price_qty sc |},
            None)
      else (f, Some (no_such_table "main.Products"))
  | CREATE_INDEX_price_qty =>
      if has_Products sc
      then (with_schema f
              {| has_Categories := has_Categories sc;
                 has_Products := true;
                 has_idx_product_name := has_idx_product_name sc;
                 has_idx_price_qty := true |},
            None)
      else (f, Some (no_such_table "main.Products"))
  | INSERT_OR_IGNORE_Categories names =>
      if has_Categories sc
      then ({| schema := sc;
               data := fold_left or_ignore_category names (data f) |},
            None)
      else (f, Some (no_such_table "Categories"))
  | INSERT_OR_IGNORE_Products rows =>
      if has_Products sc
      then ({| schema := sc;
               data := fold_left or_ignore_product rows (data f) |},
            None)
      else (f, Some (no_such_table "Products"))
  end.

(** Start-up in progress: the file, the faults the store will raise on
    its own account on the statements to come, and the console so far. *)
Record Boot := {
  file : File;
  pending : list (option string);
  console : list Line
}.

(** [db.run(sql, params, (err) => ifExists(err, tableName))] *)
Definition run_setup (s : Setup) (tableName : string) (b : Boot) : Boot :=
  match pending b with
  | Some message :: rest =>
      {| file := file b;
         pending := rest;
         console := (console b ++ ifExists (Some message) tableName)%list |}
  | _ =>
      let '(f, err) := exec_setup s (file b) in
      {| file := f;
         pending := tl (pending b);
         console := (console b ++ ifExists err tableName)%list |}
  end.

Definition log (text : string) (b : Boot) : Boot :=
  {| file := file b;
     pending := pending b;
     console := (console b ++ [console_log text])%list |}.

(** The [db.serialize] block of the server: both tables, then both
    indexes. *)
Definition initialize (b : Boot) : Boot :=
  run_setup CREATE_INDEX_price_qty "Index on Products(price, stock_quantity)"
    (run_setup CREATE_INDEX_product_name "Index on Products(product_name)"
       (run_setup CREATE_TABLE_Products "Products"
          (run_setup CREATE_TABLE_Categories "Categories"
             (log "Initializing database." b)))).

Definition seedCategories : list string :=
  ["Electronics"; "Books"; "Groceries"].

Definition seedProducts : list Seed :=
  [("Laptop", 69999 # 100, 10, Some 1);
   ("Science Fiction Novel", 1450 # 100, 50, Some 2);
   ("Apples", 99 # 100, 200, Some 3)].

(** The [db.serialize] block of [server.js]: both tables, then the demo
    categories and products. *)
Definition initialize_seeded (b : Boot) : Boot :=
  run_setup (INSERT_OR_IGNORE_Products seedProducts) "Seeded Products"
    (run_setup (INSERT_OR_IGNORE_Categories seedCategories) "Seeded Categories"
       (run_setup CREATE_TABLE_Products "Products"
          (run_setup CREATE_TABLE_Categories "Categories"
             (log "Initializing database." b)))).

(** A start on [f] that the store does not disturb. *)
Definition boot (f : File) : Boot :=
  {| file := f; pending := []; console := [] |}.

(** A file with nothing in it. *)
Definition blank : File :=
  {| schema := {| has_Categories := false; has_Products := false;
                  has_idx_product_name := false;
                  has_idx_price_qty := false |};
     data := Server.created |}.

(** Both tables exist. *)
Definition has_tables (f : File) : Prop :=
  has_Categories (schema f) = true /\ has_Products (schema f) = true.

Definition is_error (l : Line) : bool :=
  match l with
  | console_error _ => true
  | console_log _ => false
  end.

(** The statements that create schema objects, as opposed to rows. *)
Definition creates_schema (s : Setup) : Prop :=
  match s with
  | INSERT_OR_IGNORE_Categories _ | INSERT_OR_IGNORE_Products _ => False
  | _ => True
  end.

(** One undisturbed start of [server.js] on a file: the file it leaves. *)
Definition restart (f : File) : File :=
  file (initialize_seeded (boot f)).

(** The requests the server then answers run on the file's tables. *)
Definition serving (f : File) : Server.World :=
  Server.world (data f).

End Startup.

(** ** Further vocabulary *)

Module Measures.
Import Sqlite Server.


(** A product row without its stock. *)
Definition description (p : Product.row) : Z * string * Q * option Z :=
  (Product.product_id p, Product.product_name p, Product.price p,
   Product.category_id p).

(** The id in a 201 answer to a product creation. *)
Definition created_id (r : Response) : option Z :=
  match status r, body r with
  | 201, id_json id => Some id
  | _, _ => None
  end.

(** The rows of a listing answer. *)
Definition listed_rows (r : Response) : list Listing.row :=
  match body r with
  | products_json rows => rows
  | _ => []
  end.

Definition listed_categories (r : Response) : list Category.row :=
  match body r with
  | categories_json rows => rows
  | _ => []
  end.

(** The product row with a given id, if any (the first, should the key
    not be unique). *)
Definition product_of (id : Z) (ps : list Product.row) : option Product.row :=
  find (has_id id) ps.

(** The category a product row points to exists. *)
Definition categorized (cs : list Category.row) (p : Product.row) : bool :=
  existsb (on_category p) cs.

(** The 500 that passes a store error on. *)
Definition store_error (message : string) : Response :=
  {| status := 500; body := error_json message |}.


End Measures.

(* ===================================================================== *)
(** * Properties *)
(* ===================================================================== *)

Import Sqlite Server Samples.

(** ** Relational operators *)

Section Ordering.
Context {A : Type} (key : A -> string).

Lemma insert_by_perm (x : A) (l : list A) :
  Permutation (insert_by key x l) (x :: l).
Proof.
  induction l as [|y l IH]; simpl.
  - apply Permutation_refl.
  - destruct (String.leb (key x) (key y)).
    + apply Permutation_refl.
    + eapply perm_trans; [apply perm_skip, IH | apply perm_swap].
Qed.

Lemma order_by_perm (l : list A) : Permutation (order_by key l) l.
Proof.
  induction l as [|x l IH]; simpl.
  - constructor.
  - eapply perm_trans; [apply insert_by_perm | apply perm_skip, IH].
Qed.

Lemma order_by_In (x : A) (l : list A) : In x (order_by key l) <-> In x l.
Proof.
  split; apply Permutation_in;
    [apply order_by_perm | apply Permutation_sym, order_by_perm].
Qed.

Lemma insert_by_ascending (x : A) (l : list A) :
  ascending key l -> ascending key (insert_by key x l).
Proof.
  unfold ascending.
  induction l as [|y l IH]; simpl; intros Hs.
  - repeat constructor.
  - destruct (String.leb (key x) (key y)) eqn:E.
    + constructor; [exact Hs | constructor; exact E].
    + inversion Hs as [|? ? Hl Hhd]; subst.
      constructor; [apply IH, Hl |].
      assert (Hyx : String.leb (key y) (key x) = true)
        by (destruct (String.leb_total (key x) (key y)); congruence).
      destruct l as [|z l]; simpl.
      * constructor; exact Hyx.
      * destruct (String.leb (key x) (key z)); constructor;
          [exact Hyx | inversion Hhd; assumption].
Qed.

Lemma order_by_ascending (l : list A) : ascending key (order_by key l).
Proof.
  induction l as [|x l IH]; simpl.
  - constructor.
  - apply insert_by_ascending, IH.
Qed.

End Ordering.

Section Updates.

(** A row update that leaves the key alone, applied to the rows some
    condition picks, does not disturb lookups by key. *)
Variable id : Z.
Variable where_ : Product.row -> bool.
Variable set : Product.row -> Product.row.
Hypothesis set_keeps_id :
  forall p, Product.product_id (set p) = Product.product_id p.

Let updated (ps : list Product.row) : list Product.row :=
  map (fun r => if where_ r then set r else r) ps.

Lemma find_updated (i : Z) (ps : list Product.row) :
  find (has_id i) (updated ps) =
  option_map (fun r => if where_ r then set r else r) (find (has_id i) ps).
Proof.
  unfold updated.
  induction ps as [|p ps IH]; simpl; [reflexivity|].
  assert (E : has_id i (if where_ p then set p else p) = has_id i p).
  { unfold has_id. destruct (where_ p); [rewrite set_keeps_id|]; reflexivity. }
  rewrite E. destruct (has_id i p); [reflexivity | exact IH].
Qed.

Lemma updated_ids (ps : list Product.row) :
  map Product.product_id (updated ps) = map Product.product_id ps.
Proof.
  unfold updated. rewrite map_map. apply map_ext.
  intros p. destruct (where_ p); [apply set_keeps_id | reflexivity].
Qed.

Hypothesis where_id : forall p, where_ p = true -> has_id id p = true.


End Updates.

Lemma filter_none {A} (f : A -> bool) (l : list A) :
  (forall x, In x l -> f x = false) -> filter f l = [].
Proof.
  induction l as [|x l IH]; simpl; intros H; [reflexivity|].
  rewrite (H x (or_introl eq_refl)). apply IH. intros y Hy. apply H. now right.
Qed.

Lemma filter_some {A} (f : A -> bool) (l : list A) (x : A) :
  In x l -> f x = true -> filter f l <> [].
Proof.
  intros Hin Hf E.
  assert (Hx : In x (filter f l)) by (apply filter_In; split; assumption).
  rewrite E in Hx. exact Hx.
Qed.

Lemma count_zero {A} (l : list A) :
  (Z.of_nat (List.length l) =? 0) = true <-> l = [].
Proof.
  rewrite Z.eqb_eq.
  destruct l; simpl; split; intros H;
    try reflexivity; try discriminate; lia.
Qed.

Lemma same_key_same_row (ps : list Product.row) (p q : Product.row) :
  primary_key ps -> In p ps -> In q ps ->
  Product.product_id p = Product.product_id q -> p = q.
Proof.
  unfold primary_key.
  induction ps as [|r ps IH]; simpl; intros Hnd Hp Hq E; [contradiction|].
  inversion Hnd as [|? ? Hnotin Hnd']; subst.
  destruct Hp as [Hp|Hp], Hq as [Hq|Hq]; subst.
  - reflexivity.
  - exfalso. apply Hnotin. rewrite E. now apply in_map.
  - exfalso. apply Hnotin. rewrite <- E. now apply in_map.
  - now apply IH.
Qed.

(** ** The driver *)

Lemma calm_head (n : nat) (w : World) :
  calm (S n) w -> next_fault w = (None, advance (db w) w).
Proof.
  unfold calm, next_fault, advance. destruct w as [d fs]; simpl.
  destruct fs as [|f fs]; simpl; intros H; [reflexivity|].
  inversion H; subst. reflexivity.
Qed.

Lemma calm_advance (n : nat) (d : Database) (w : World) :
  calm (S n) w -> calm n (advance d w).
Proof.
  unfold calm, advance. destruct w as [d0 fs]; simpl.
  destruct fs as [|f fs]; simpl; intros H.
  - destruct n; constructor.
  - now inversion H.
Qed.

Lemma calm_less (n : nat) (w : World) : calm (S n) w -> calm n w.
Proof.
  unfold calm. generalize (faults w) as fs. clear w.
  induction n as [|n IH]; intros fs H; [constructor|].
  destruct fs as [|f fs]; [constructor|].
  change (Forall (fun f => f = None) (f :: firstn (S n) fs)) in H.
  inversion H; subst. simpl. constructor; [reflexivity | now apply IH].
Qed.

(** A statement the store does not fail of its own accord runs. *)
Lemma db_run_calm {B} (s : Stmt) (k : RunResult -> M B) (n : nat) (w : World) :
  calm (S n) w ->
  bind (db_run s) k w =
  k (snd (exec s (db w))) (advance (fst (exec s (db w))) w).
Proof.
  intros H. unfold bind, db_run, bind. rewrite (calm_head n w H).
  unfold advance; simpl. destruct (exec s (db w)); reflexivity.
Qed.

Lemma db_all_calm {A B} (q : Tables -> list A)
  (k : option string * list A -> M B) (n : nat) (w : World) :
  calm (S n) w ->
  bind (db_all q) k w = k (None, q (tables (db w))) (advance (db w) w).
Proof.
  intros H. unfold bind, db_all, bind. rewrite (calm_head n w H). reflexivity.
Qed.

(** A statement the store fails leaves the database as it was. *)
Lemma db_run_fault {B} (s : Stmt) (k : RunResult -> M B) (m : string)
  (w : World) :
  hd None (faults w) = Some m ->
  bind (db_run s) k w = k (failed m) (advance (db w) w).
Proof.
  intros H. unfold bind, db_run, bind, next_fault, advance.
  destruct w as [d fs]; simpl in *. destruct fs as [|f fs]; simpl in *;
    [discriminate | subst f; reflexivity].
Qed.

Lemma calm_one (w : World) : hd None (faults w) = None -> calm 1 w.
Proof.
  unfold calm. destruct (faults w) as [|f fs]; simpl; intros H.
  - constructor.
  - subst f. repeat constructor.
Qed.

(** Every statement either fails on the store's own account, leaving the
    database alone, or runs. *)
Lemma db_run_cases {B} (s : Stmt) (k : RunResult -> M B) (w : World) :
  (exists m, bind (db_run s) k w = k (failed m) (advance (db w) w)) \/
  bind (db_run s) k w =
  k (snd (exec s (db w))) (advance (fst (exec s (db w))) w).
Proof.
  destruct (hd None (faults w)) as [m|] eqn:E.
  - left. exists m. now apply db_run_fault.
  - right. apply (db_run_calm s k 0). now apply calm_one.
Qed.

Ltac run_stmt H :=
  match type of H with
  | calm (S ?n) ?w =>
      match goal with
      | |- context [bind (db_run ?s) ?k w] =>
          rewrite (db_run_calm s k n w H); cbv beta
      end
  end.

(** ** Statements of a transfer *)

Lemma exec_begin (d : Database) :
  txn d = None ->
  exec BEGIN_TRANSACTION d =
  ({| tables := tables d; txn := Some (tables d) |}, ok 0 0).
Proof. intros H. unfold exec. rewrite H. reflexivity. Qed.

Lemma exec_minus (q id : Z) (d : Database) :
  exec (UPDATE_stock_minus q id q) d =
  ({| tables := with_products (tables d) (debited q id (Products (tables d)));
      txn := txn d |},
   ok 0 (rows_in_stock q id (Products (tables d)))).
Proof. reflexivity. Qed.

Lemma exec_plus (q id : Z) (d : Database) :
  exec (UPDATE_stock_plus q id) d =
  ({| tables := with_products (tables d) (credited q id (Products (tables d)));
      txn := txn d |},
   ok 0 (rows_with_id id (Products (tables d)))).
Proof. reflexivity. Qed.

Lemma idle_eta (w : World) :
  idle w -> {| tables := tables (db w); txn := None |} = db w.
Proof. unfold idle. destruct w as [[t x] fs]; simpl. intros ->. reflexivity. Qed.


Lemma set_stock_id (q : Z) (p : Product.row) :
  Product.product_id (set_stock q p) = Product.product_id p.
Proof. reflexivity. Qed.

Lemma rows_in_stock_none (q id : Z) (ps : list Product.row) :
  (forall p, In p ps -> Product.product_id p = id ->
             Product.stock_quantity p < q) ->
  rows_in_stock q id ps = 0.
Proof.
  intros H. unfold rows_in_stock. rewrite filter_none; [reflexivity|].
  intros p Hp. unfold in_stock, has_id.
  destruct (Product.product_id p =? id) eqn:E; [|reflexivity].
  apply Z.eqb_eq in E. specialize (H p Hp E). simpl. apply Z.leb_gt. exact H.
Qed.

Lemma debited_none (q id : Z) (ps : list Product.row) :
  rows_in_stock q id ps = 0 -> debited q id ps = ps.
Proof.
  unfold rows_in_stock, debited. intros H.
  assert (E : filter (in_stock q id) ps = []).
  { apply count_zero. apply Z.eqb_eq. exact H. }
  rewrite <- (map_id ps) at 2. apply map_ext_in. intros p Hp.
  destruct (in_stock q id p) eqn:W; [|reflexivity].
  exfalso. apply (filter_some _ _ _ Hp W E).
Qed.

Lemma rows_with_id_none (id : Z) (ps : list Product.row) :
  (forall p, In p ps -> Product.product_id p <> id) ->
  rows_with_id id ps = 0.
Proof.
  intros H. unfold rows_with_id. rewrite filter_none; [reflexivity|].
  intros p Hp. apply Z.eqb_neq. now apply H.
Qed.

Lemma stock_of_found (id a : Z) (ps : list Product.row) :
  stock_of id ps = Some a ->
  exists p, In p ps /\ has_id id p = true /\ Product.stock_quantity p = a /\
            find (has_id id) ps = Some p.
Proof.
  unfold stock_of. destruct (find (has_id id) ps) as [p|] eqn:F; [|discriminate].
  simpl. intros [= <-]. exists p. apply find_some in F. tauto.
Qed.

Lemma debited_source (q id a : Z) (ps : list Product.row) :
  stock_of id ps = Some a -> q <= a ->
  rows_in_stock q id ps <> 0 /\ stock_of id (debited q id ps) = Some (a - q).
Proof.
  intros Hs Hq. destruct (stock_of_found _ _ _ Hs) as (p & Hin & Hid & Ha & F).
  assert (W : in_stock q id p = true).
  { unfold in_stock. rewrite Hid. simpl. apply Z.leb_le. lia. }
  split.
  - unfold rows_in_stock. intros E.
    apply (filter_some _ _ _ Hin W). apply count_zero. now apply Z.eqb_eq.
  - unfold stock_of, debited.
    rewrite (find_updated _ _ (fun p => set_stock_id _ p)).
    rewrite F. simpl. rewrite W. simpl. now rewrite Ha.
Qed.

Lemma credited_destination (q id b : Z) (ps : list Product.row) :
  stock_of id ps = Some b ->
  rows_with_id id ps <> 0 /\ stock_of id (credited q id ps) = Some (b + q).
Proof.
  intros Hs. destruct (stock_of_found _ _ _ Hs) as (p & Hin & Hid & Hb & F).
  split.
  - unfold rows_with_id. intros E.
    apply (filter_some _ _ _ Hin Hid). apply count_zero. now apply Z.eqb_eq.
  - unfold stock_of, credited.
    rewrite (find_updated _ _ (fun p => set_stock_id _ p)).
    rewrite F. simpl. rewrite Hid. simpl. now rewrite Hb.
Qed.



Lemma debited_ids (q id : Z) (ps : list Product.row) :
  map Product.product_id (debited q id ps) = map Product.product_id ps.
Proof. unfold debited. apply updated_ids. reflexivity. Qed.

Lemma rows_with_id_debited (q id i : Z) (ps : list Product.row) :
  rows_with_id i (debited q id ps) = rows_with_id i ps.
Proof.
  unfold rows_with_id, debited. f_equal.
  induction ps as [|p ps IH]; simpl; [reflexivity|].
  assert (E : has_id i (if in_stock q id p
                        then set_stock (Product.stock_quantity p - q) p
                        else p) = has_id i p)
    by (destruct (in_stock q id p); reflexivity).
  rewrite E. destruct (has_id i p); simpl; now rewrite IH.
Qed.

Lemma exec_rollback (t saved : Tables) :
  exec ROLLBACK {| tables := t; txn := Some saved |} =
  ({| tables := saved; txn := None |}, ok 0 0).
Proof. reflexivity. Qed.

Lemma exec_commit (t saved : Tables) :
  exec COMMIT {| tables := t; txn := Some saved |} =
  ({| tables := t; txn := None |}, ok 0 0).
Proof. reflexivity. Qed.

Ltac begin_transfer Hidle H :=
  unfold post_inventory_adjust;
  run_stmt H; rewrite (exec_begin _ Hidle);
  cbn [fst snd err ok]; cbv beta iota.

Ltac next_calm H H' :=
  match type of H with
  | calm (S ?n) ?w =>
      match goal with
      | |- context [advance ?d w] => pose proof (calm_advance n d w H) as H'
      end
  end.

Ltac run_debit H H' :=
  run_stmt H; rewrite exec_minus; cbn [fst snd]; next_calm H H';
  unfold err_or_no_changes at 1;
  cbn [err changes ok db advance tables txn] in *.

Ltac run_credit H H' :=
  run_stmt H; rewrite exec_plus; cbn [fst snd]; next_calm H H';
  unfold err_or_no_changes at 1;
  cbn [err changes ok db advance tables txn with_products Products] in *.

Ltac close_transfer Hidle :=
  unfold json, ret, insufficient_reply, destination_reply, success_reply,
    message_or, advance;
  cbn [err ok db faults fst]; try rewrite (idle_eta _ Hidle); reflexivity.

Lemma transfer_insufficient (from to q : Z) (w : World) :
  idle w -> calm 3 w ->
  rows_in_stock q from (products w) = 0 ->
  exists fs,
    post_inventory_adjust from to q w =
    (insufficient_reply, {| db := db w; faults := fs |}).
Proof.
  intros Hidle H3 Hn. eexists.
  begin_transfer Hidle H3. next_calm H3 H2.
  run_debit H2 H1. fold (products w) in *. rewrite Hn in *.
  cbn [Z.eqb]. cbv beta iota.
  run_stmt H1. cbn [db advance]. rewrite exec_rollback.
  close_transfer Hidle.
Qed.

Lemma transfer_no_destination (from to q : Z) (w : World) :
  idle w -> calm 4 w ->
  rows_in_stock q from (products w) <> 0 ->
  rows_with_id to (products w) = 0 ->
  exists fs,
    post_inventory_adjust from to q w =
    (destination_reply, {| db := db w; faults := fs |}).
Proof.
  intros Hidle H4 Hn Hd. eexists.
  begin_transfer Hidle H4. next_calm H4 H3.
  run_debit H3 H2. fold (products w) in *.
  apply Z.eqb_neq in Hn. rewrite Hn in *. cbv beta iota.
  run_credit H2 H1. rewrite rows_with_id_debited, Hd in *.
  cbn [Z.eqb]. cbv beta iota.
  run_stmt H1. cbn [db advance]. rewrite exec_rollback.
  close_transfer Hidle.
Qed.

Lemma transfer_commits (from to q : Z) (w : World) :
  idle w -> calm 4 w ->
  rows_in_stock q from (products w) <> 0 ->
  rows_with_id to (products w) <> 0 ->
  exists fs,
    post_inventory_adjust from to q w =
    (success_reply,
     {| db := {| tables :=
                   with_products (tables (db w))
                     (credited q to (debited q from (products w)));
                 txn := None |};
        faults := fs |}).
Proof.
  intros Hidle H4 Hn Hd. eexists.
  begin_transfer Hidle H4. next_calm H4 H3.
  run_debit H3 H2. fold (products w) in *.
  apply Z.eqb_neq in Hn. rewrite Hn in *. cbv beta iota.
  run_credit H2 H1. rewrite rows_with_id_debited in *.
  apply Z.eqb_neq in Hd. rewrite Hd in *. cbv beta iota.
  run_stmt H1. cbn [db advance]. rewrite exec_commit.
  close_transfer Hidle.
Qed.

(** ** The stock transfer *)





Ltac run_any :=
  match goal with
  | |- context [bind (db_run ?s) ?k ?w] =>
      let m := fresh "m" in
      let E := fresh "E" in
      destruct (db_run_cases s k w) as [[m E]|E]; rewrite E; clear E; cbv beta
  end.

(** C2: when no product with the source id holds the quantity (the source
    is missing, or its stock is below the quantity), the transfer answers
    400 with the insufficient-stock message and no product or category row
    changes, whatever the store does after BEGIN; if the store raises no
    fault of its own the whole database, transaction state included, is
    as before. *)
Theorem insufficient_stock_changes_nothing (from to q : Z) (w : World) :
  idle w -> calm 1 w ->
  (forall p, In p (products w) -> Product.product_id p = from ->
             Product.stock_quantity p < q) ->
  let r := reply (post_inventory_adjust from to q) w in
  let w' := after (post_inventory_adjust from to q) w in
  status r = 400 /\
  (exists e, body r = message_error_json insufficient_message e) /\
  products w' = products w /\
  categories w' = categories w /\
  (calm 3 w -> r = insufficient_reply /\ db w' = db w).
Proof.
  intros Hidle H1 Hlow r w'.
  apply rows_in_stock_none in Hlow.
  split; [|split; [|split; [|split]]].
  5: { intros H3. destruct (transfer_insufficient from to q w Hidle H3 Hlow) as [fs E].
       subst r w'. unfold reply, after. rewrite E. split; reflexivity. }
  all: subst r w'; unfold reply, after; begin_transfer Hidle H1.
  all: run_any; [|rewrite exec_minus; cbn [fst snd]];
    unfold err_or_no_changes at 1;
    cbn [err changes ok failed db advance tables txn]; fold (products w);
    try rewrite Hlow; cbn [Z.eqb]; cbv beta iota.
  all: run_any; cbn [db advance]; try rewrite exec_rollback;
    unfold json, ret, products, categories, advance, message_or in *;
    cbn [fst snd status body db tables Products Categories with_products
         err failed ok];
    try rewrite (debited_none _ _ _ Hlow);
    try reflexivity; eexists; reflexivity.
Qed.

Lemma insufficient_stock_changes_nothing_witness :
  let r := reply (post_inventory_adjust 2 1 6) (world shop) in
  let w' := after (post_inventory_adjust 2 1 6) (world shop) in
  status r = 400 /\
  (exists e, body r = message_error_json insufficient_message e) /\
  products w' = products (world shop) /\
  categories w' = categories (world shop) /\
  (calm 3 (world shop) -> r = insufficient_reply /\ db w' = db (world shop)).
Proof.
  apply (insufficient_stock_changes_nothing 2 1 6 (world shop)).
  - reflexivity.
  - unfold calm; simpl; constructor.
  - simpl. intros p [<-|[<-|[]]]; simpl; intros E; [discriminate E | lia].
Defined.


(** C3: when the source holds the quantity and no product has the
    destination id, the transfer answers 400 with the destination-not-found
    message, which differs from the insufficient-stock one, and the debit
    is undone: the database, and so the source's stock, is as before. *)
Theorem missing_destination_rolls_back (from to q a : Z) (w : World) :
  idle w -> calm 4 w ->
  stock_of from (products w) = Some a -> q <= a ->
  (forall p, In p (products w) -> Product.product_id p <> to) ->
  let r := reply (post_inventory_adjust from to q) w in
  let w' := after (post_inventory_adjust from to q) w in
  r = destination_reply /\ status r = 400 /\
  body r <> body insufficient_reply /\
  db w' = db w /\
  stock_of from (products w') = Some a /\
  stock_of from (debited q from (products w)) = Some (a - q).
Proof.
  intros Hidle H4 Ha Hq Hto r w'.
  destruct (debited_source q from a _ Ha Hq) as [Hn Ha'].
  apply rows_with_id_none in Hto.
  destruct (transfer_no_destination from to q w Hidle H4 Hn Hto) as [fs E].
  subst r w'. unfold reply, after, products in *. rewrite E. cbn [fst snd db].
  repeat split; try assumption. discriminate.
Qed.

Lemma missing_destination_rolls_back_witness :
  let r := reply (post_inventory_adjust 1 999 1) (world shop) in
  let w' := after (post_inventory_adjust 1 999 1) (world shop) in
  r = destination_reply /\ status r = 400 /\
  body r <> body insufficient_reply /\
  db w' = db (world shop) /\
  stock_of 1 (products w') = Some 10 /\
  stock_of 1 (debited 1 1 (products (world shop))) = Some (10 - 1).
Proof.
  apply (missing_destination_rolls_back 1 999 1 10 (world shop)).
  - reflexivity.
  - unfold calm; simpl; constructor.
  - reflexivity.
  - lia.
  - simpl. intros p [<-|[<-|[]]]; simpl; lia.
Defined.



(** ** What a request can do to the tables *)

Lemma credited_ids (q id : Z) (ps : list Product.row) :
  map Product.product_id (credited q id ps) = map Product.product_id ps.
Proof. unfold credited. apply updated_ids. reflexivity. Qed.

Ltac settle :=
  cbn [db advance err failed]; cbv beta iota;
  try rewrite exec_rollback; try rewrite exec_commit;
  unfold json, ret, advance, products in *;
  cbn [fst snd db tables err ok]; assumption.

(** Whatever the store fails, a transfer leaves the tables as they were,
    or debited, or debited and credited, and nothing else: what holds of
    these three holds of the tables after the transfer. *)
Lemma transfer_tables (P : Tables -> Prop) (from to q : Z) (w : World) :
  P (tables (db w)) ->
  P (with_products (tables (db w)) (debited q from (products w))) ->
  P (with_products (tables (db w))
       (credited q to (debited q from (products w)))) ->
  P (tables (db (after (post_inventory_adjust from to q) w))).
Proof.
  intros H Hd Hc. unfold after, post_inventory_adjust.
  run_any; [settle|].
  destruct (txn (db w)) as [saved|] eqn:T.
  { unfold exec. rewrite T. settle. }
  rewrite (exec_begin _ T). cbn [fst snd err ok]. cbv beta iota.
  run_any; [|rewrite exec_minus; cbn [fst snd]];
    unfold err_or_no_changes at 1;
    cbn [err changes ok failed db advance tables txn]; fold (products w);
    cbv beta iota.
  - run_any; settle.
  - destruct (rows_in_stock q from (products w) =? 0).
    + run_any; settle.
    + run_any; [|rewrite exec_plus; cbn [fst snd]];
        unfold err_or_no_changes at 1;
        cbn [err changes ok failed db advance tables txn with_products
             Products];
        cbv beta iota.
      * run_any; settle.
      * destruct (rows_with_id to (debited q from (products w)) =? 0);
          run_any; settle.
Qed.

(** A handler that issues one statement other than BEGIN, ROLLBACK and
    COMMIT leaves the database alone or changes its tables as the
    statement says. *)
Lemma db_run_db {B} (P : Database -> Prop) (s : Stmt)
  (k : RunResult -> M B) (w : World) :
  (forall r w0, snd (k r w0) = w0) ->
  s <> BEGIN_TRANSACTION -> s <> ROLLBACK -> s <> COMMIT ->
  P (db w) ->
  P {| tables := fst (exec_dml s (tables (db w))); txn := txn (db w) |} ->
  P (db (after (bind (db_run s) k) w)).
Proof.
  intros Hk Hb Hr Hc H H'. unfold after.
  run_any; rewrite Hk; [exact H|].
  unfold advance, exec. cbn [db].
  destruct s; try contradiction; destruct (exec_dml _ _); exact H'.
Qed.

Lemma db_run_tables {B} (P : Tables -> Prop) (s : Stmt)
  (k : RunResult -> M B) (w : World) :
  (forall r w0, snd (k r w0) = w0) ->
  s <> BEGIN_TRANSACTION -> s <> ROLLBACK -> s <> COMMIT ->
  P (tables (db w)) ->
  P (fst (exec_dml s (tables (db w)))) ->
  P (tables (db (after (bind (db_run s) k) w))).
Proof.
  intros Hk Hb Hr Hc H H'.
  now apply (db_run_db (fun d => P (tables d))).
Qed.

Lemma db_all_tables {A B} (q : Tables -> list A)
  (k : option string * list A -> M B) (w : World) :
  (forall r w0, snd (k r w0) = w0) ->
  db (after (bind (db_all q) k) w) = db w.
Proof.
  intros Hk. unfold after, bind, db_all, bind, next_fault.
  destruct (faults w) as [|[m|] fs]; unfold ret; rewrite Hk; reflexivity.
Qed.

Ltac ends_in_json :=
  intros; unfold json, ret;
  repeat match goal with
         | |- context [match ?x with _ => _ end] => destruct x
         end; reflexivity.

(** ** Non-negative stock *)

Lemma debited_nonneg (q id : Z) (ps : list Product.row) :
  stock_nonneg ps -> stock_nonneg (debited q id ps).
Proof.
  unfold stock_nonneg, debited. intros H. apply Forall_map.
  eapply Forall_impl; [|exact H]. intros p Hp. cbv beta in *.
  destruct (in_stock q id p) eqn:W; [|exact Hp].
  unfold in_stock in W. apply andb_true_iff in W. destruct W as [_ W].
  apply Z.leb_le in W. simpl. lia.
Qed.

Lemma credited_nonneg (q id : Z) (ps : list Product.row) :
  0 <= q -> stock_nonneg ps -> stock_nonneg (credited q id ps).
Proof.
  unfold stock_nonneg, credited. intros Hq H. apply Forall_map.
  eapply Forall_impl; [|exact H]. intros p Hp. cbv beta in *.
  destruct (has_id id p); [simpl; lia | exact Hp].
Qed.

Lemma exec_dml_nonneg (s : Stmt) (t : Tables) :
  match s with
  | INSERT_Products _ _ q _ | UPDATE_Products _ _ q _ _ => 0 <= q
  | UPDATE_stock_minus _ _ _ | UPDATE_stock_plus _ _ => False
  | _ => True
  end ->
  stock_nonneg (Products t) ->
  stock_nonneg (Products (fst (exec_dml s t))).
Proof.
  unfold stock_nonneg.
  destruct s; simpl; intros Hq H; try exact H; try contradiction.
  - destruct (existsb _ _); exact H.
  - apply Forall_app. split; [exact H|]. repeat constructor. exact Hq.
  - apply Forall_map. eapply Forall_impl; [|exact H]. intros p Hp.
    cbv beta in *. destruct (has_id id p); [exact Hq | exact Hp].
  - apply Forall_forall. intros p Hp. apply filter_In in Hp.
    rewrite Forall_forall in H. now apply H.
Qed.

Lemma transfer_nonneg (from to q : Z) (w : World) :
  0 <= q -> stock_nonneg (products w) ->
  stock_nonneg (products (after (post_inventory_adjust from to q) w)).
Proof.
  intros Hq H. unfold products at 1.
  apply (transfer_tables (fun t => stock_nonneg (Products t))).
  - exact H.
  - now apply debited_nonneg.
  - now apply credited_nonneg, debited_nonneg.
Qed.

(** C4, amended: on a store whose stock quantities are all non-negative,
    no request that carries a non-negative quantity (create, update,
    transfer) and no request without a quantity leaves a negative stock
    quantity behind, whichever statements the store fails and whether or
    not a transaction was left open. *)
Theorem stock_stays_nonneg (req : Request) (w : World) :
  stock_nonneg (products w) ->
  (forall q, quantity_of req = Some q -> 0 <= q) ->
  stock_nonneg (products (after (handle req) w)).
Proof.
  intros H Hq.
  assert (One : forall s (k : RunResult -> M Response),
             (forall r w0, snd (k r w0) = w0) ->
             s <> BEGIN_TRANSACTION -> s <> ROLLBACK -> s <> COMMIT ->
             stock_nonneg (Products (fst (exec_dml s (tables (db w))))) ->
             stock_nonneg (products (after (bind (db_run s) k) w))).
  { intros s k Hk Hb Hr Hc H'. unfold products at 1.
    now apply (db_run_tables (fun t => stock_nonneg (Products t))). }
  destruct req; cbn [handle quantity_of] in *.
  - unfold products at 1, get_categories. rewrite db_all_tables;
      [exact H | ends_in_json].
  - unfold products at 1, get_products.
    destruct (build_filter minPrice maxPrice minQty maxQty) as [cs vs].
    rewrite db_all_tables; [exact H | ends_in_json].
  - unfold post_categories. destruct name as [s|]; [|exact H].
    destruct (negb (JS.truthy (Some s))); [exact H|].
    unfold createCategory. apply One; try discriminate; [ends_in_json|].
    now apply exec_dml_nonneg.
  - apply One; try discriminate; [ends_in_json|].
    apply exec_dml_nonneg; [now apply Hq | exact H].
  - apply One; try discriminate; [ends_in_json|].
    apply exec_dml_nonneg; [now apply Hq | exact H].
  - apply One; try discriminate; [ends_in_json|].
    now apply exec_dml_nonneg.
  - apply transfer_nonneg; [apply Hq; reflexivity | exact H].
Qed.

Lemma stock_stays_nonneg_witness :
  stock_nonneg
    (products (after (handle (POST_inventory_adjust 1 2 10)) (world shop))).
Proof.
  apply (stock_stays_nonneg (POST_inventory_adjust 1 2 10) (world shop)).
  - unfold stock_nonneg; simpl. repeat constructor; simpl; lia.
  - simpl. intros q E. injection E as <-. lia.
Defined.

(** C4 as stated fails: an update that writes quantity -1 is accepted and
    stored. *)
Lemma update_stores_negative_stock :
  ~ (forall req w,
       stock_nonneg (products w) ->
       stock_nonneg (products (after (handle req) w))).
Proof.
  intros H.
  specialize (H (PUT_products 1 "Laptop" (69999 # 100) (-1) (Some 1))
                (world shop)).
  assert (H0 : stock_nonneg (products (world shop)))
    by (unfold stock_nonneg; simpl; repeat constructor; simpl; lia).
  apply H in H0. vm_compute in H0.
  inversion H0 as [|? ? Hneg _]. apply Hneg. reflexivity.
Qed.

(** The same route through a transfer: moving -6 units from product 1 to
    product 2 passes the debit guard and leaves product 2 at -1. *)
Example negative_transfer_overdraws :
  reply (post_inventory_adjust 1 2 (-6)) (world shop) = success_reply /\
  stock_of 1 (products (after (post_inventory_adjust 1 2 (-6)) (world shop)))
  = Some 16 /\
  stock_of 2 (products (after (post_inventory_adjust 1 2 (-6)) (world shop)))
  = Some (-1).
Proof. repeat split. Qed.

(** ** The schema's constraints are kept *)

Lemma next_rowid_fresh (seq : Z) (ids : list Z) :
  ~ In (next_rowid seq ids) ids.
Proof.
  unfold next_rowid. intros H.
  assert (B : forall x, In x ids -> x <= fold_right Z.max 0 ids).
  { clear H. induction ids as [|y ids IH]; simpl; intros x Hx; [contradiction|].
    destruct Hx as [<-|Hx]; [lia | specialize (IH x Hx); lia]. }
  apply B in H. lia.
Qed.

Lemma NoDup_snoc {A} (l : list A) (x : A) :
  NoDup l -> ~ In x l -> NoDup (l ++ [x]).
Proof.
  intros Hl Hx. apply Permutation_NoDup with (l := x :: l).
  - apply Permutation_cons_append.
  - now constructor.
Qed.

Lemma NoDup_map_filter {A B} (f : A -> B) (g : A -> bool) (l : list A) :
  NoDup (map f l) -> NoDup (map f (filter g l)).
Proof.
  induction l as [|x l IH]; simpl; intros H; [constructor|].
  inversion H as [|? ? Hx Hl]; subst.
  destruct (g x); simpl; [|now apply IH].
  constructor; [|now apply IH].
  intros Hin. apply Hx. apply in_map_iff in Hin.
  destruct Hin as (y & E & Hy). apply filter_In in Hy.
  apply in_map_iff. exists y. tauto.
Qed.

Lemma name_taken (name : string) (cs : list Category.row) :
  existsb (fun c => String.eqb (Category.category_name c) name) cs = true <->
  In name (map Category.category_name cs).
Proof.
  rewrite existsb_exists, in_map_iff. split; intros (c & H1 & H2).
  - exists c. split; [now apply String.eqb_eq | exact H1].
  - exists c. split; [exact H2 | now apply String.eqb_eq].
Qed.

Lemma exec_dml_constrained (s : Stmt) (t : Tables) :
  constrained t -> constrained (fst (exec_dml s t)).
Proof.
  unfold constrained, primary_key, unique_names. intros [Hp Hc].
  destruct s; simpl; try (split; assumption).
  - destruct (existsb _ _) eqn:E; simpl; [split; assumption|].
    split; [assumption|]. rewrite map_app. apply NoDup_snoc; [assumption|].
    intros H. apply name_taken in H. simpl in H. congruence.
  - split; [|assumption]. rewrite map_app. apply NoDup_snoc; [assumption|].
    apply next_rowid_fresh.
  - split; [|assumption].
    rewrite (updated_ids (has_id id)
               (set_fields name price quantity category_id));
      [assumption | reflexivity].
  - split; [|assumption]. now apply NoDup_map_filter.
  - split; [|assumption].
    rewrite (updated_ids _
               (fun p => set_stock (Product.stock_quantity p - amount) p));
      [assumption | reflexivity].
  - split; [|assumption]. fold (credited amount id (Products t)).
    now rewrite credited_ids.
Qed.

(** No request breaks the PRIMARY KEY of [Products] or the UNIQUE
    constraint of [Categories], whatever the store fails. *)
Theorem constraints_kept (req : Request) (w : World) :
  constrained (tables (db w)) ->
  constrained (tables (db (after (handle req) w))).
Proof.
  intros H.
  assert (One : forall s (k : RunResult -> M Response),
             (forall r w0, snd (k r w0) = w0) ->
             s <> BEGIN_TRANSACTION -> s <> ROLLBACK -> s <> COMMIT ->
             constrained (tables (db (after (bind (db_run s) k) w)))).
  { intros s k Hk Hb Hr Hc.
    apply (db_run_tables constrained); try assumption.
    now apply exec_dml_constrained. }
  destruct req; cbn [handle].
  - unfold get_categories. rewrite db_all_tables; [exact H | ends_in_json].
  - unfold get_products.
    destruct (build_filter minPrice maxPrice minQty maxQty) as [cs vs].
    rewrite db_all_tables; [exact H | ends_in_json].
  - unfold post_categories. destruct name as [s|]; [|exact H].
    destruct (negb (JS.truthy (Some s))); [exact H|].
    unfold createCategory. apply One; try discriminate; ends_in_json.
  - apply One; try discriminate; ends_in_json.
  - apply One; try discriminate; ends_in_json.
  - apply One; try discriminate; ends_in_json.
  - destruct H as [Hp Hc].
    apply (transfer_tables constrained); split; try assumption;
      unfold primary_key in *; cbn [with_products Products];
      rewrite ?credited_ids, ?debited_ids; assumption.
Qed.

(** So the constraints hold in every database the server can reach from
    the schema it creates. *)
Theorem constraints_always (reqs : list Request) (fs : list (option string)) :
  constrained
    (tables (db (serve reqs {| db := {| tables := created; txn := None |};
                               faults := fs |}))).
Proof.
  unfold serve.
  assert (G : forall w, constrained (tables (db w)) ->
                        constrained
                          (tables (db (fold_left
                                         (fun w0 req => after (handle req) w0)
                                         reqs w)))).
  { induction reqs as [|req reqs IH]; intros w H; simpl; [exact H|].
    apply IH. now apply constraints_kept. }
  apply G. split; constructor.
Qed.

(** ** Transactions are closed *)

(** X25: a request served by a store that raises no fault of its own leaves no
    transaction open. *)
Theorem idle_kept (req : Request) (w : World) :
  idle w -> calm 4 w -> idle (after (handle req) w).
Proof.
  intros Hidle H4. unfold idle in *.
  assert (One : forall s (k : RunResult -> M Response),
             (forall r w0, snd (k r w0) = w0) ->
             s <> BEGIN_TRANSACTION -> s <> ROLLBACK -> s <> COMMIT ->
             txn (db (after (bind (db_run s) k) w)) = None).
  { intros s k Hk Hb Hr Hc.
    now apply (db_run_db (fun d => txn d = None)). }
  destruct req; cbn [handle].
  - unfold get_categories. rewrite db_all_tables;
      [exact Hidle | ends_in_json].
  - unfold get_products.
    destruct (build_filter minPrice maxPrice minQty maxQty) as [cs vs].
    rewrite db_all_tables; [exact Hidle | ends_in_json].
  - unfold post_categories. destruct name as [s|]; [|exact Hidle].
    destruct (negb (JS.truthy (Some s))); [exact Hidle|].
    unfold createCategory. apply One; try discriminate; ends_in_json.
  - apply One; try discriminate; ends_in_json.
  - apply One; try discriminate; ends_in_json.
  - apply One; try discriminate; ends_in_json.
  - unfold after.
    destruct (Z.eq_dec (rows_in_stock quantity from_product_id (products w)) 0)
      as [Hn|Hn].
    + destruct (transfer_insufficient from_product_id to_product_id quantity
                  w Hidle (calm_less _ _ H4) Hn) as [fs E].
      rewrite E. exact Hidle.
    + destruct (Z.eq_dec (rows_with_id to_product_id (products w)) 0)
        as [Hd|Hd].
      * destruct (transfer_no_destination from_product_id to_product_id
                    quantity w Hidle H4 Hn Hd) as [fs E].
        rewrite E. exact Hidle.
      * destruct (transfer_commits from_product_id to_product_id quantity
                    w Hidle H4 Hn Hd) as [fs E].
        rewrite E. reflexivity.
Qed.

(** ** The product listing *)

Lemma truthy_some (s : string) : JS.truthy (Some s) = true <-> s <> "".
Proof.
  unfold JS.truthy. rewrite negb_true_iff. apply String.eqb_neq.
Qed.

Lemma combine_snoc {A B} (l : list A) (l' : list B) (a : A) (b : B) :
  List.length l = List.length l' ->
  combine (l ++ [a]) (l' ++ [b]) = (combine l l' ++ [(a, b)])%list.
Proof.
  revert l'. induction l as [|x l IH]; intros [|y l'] E; simpl in *;
    try discriminate; [reflexivity|].
  f_equal. apply IH. now injection E.
Qed.

Section Bounds.
Variable r : Listing.row.

Let passes (acc : list Clause * list JS.number) : Prop :=
  forallb (holds r) (combine (fst acc) (snd acc)) = true.

Let balanced (acc : list Clause * list JS.number) : Prop :=
  List.length (fst acc) = List.length (snd acc).

Lemma push_bound_balanced value c parse acc :
  balanced acc -> balanced (push_bound value c parse acc).
Proof.
  unfold balanced, push_bound. intros H.
  destruct value as [s|]; [|exact H].
  destruct (JS.truthy (Some s)); [|exact H].
  simpl. rewrite !length_app. simpl. now rewrite H.
Qed.

Lemma push_bound_passes value c parse acc :
  balanced acc ->
  (passes (push_bound value c parse acc) <->
   passes acc /\ within value c parse r).
Proof.
  unfold balanced, passes, push_bound, within. intros H.
  destruct value as [s|]; [|tauto].
  destruct (JS.truthy (Some s)) eqn:T.
  - apply truthy_some in T. cbn [fst snd].
    rewrite (combine_snoc _ _ _ _ H), forallb_app. simpl.
    rewrite !andb_true_iff. tauto.
  - assert (s = "").
    { destruct (String.eqb_spec s ""); [assumption|].
      apply truthy_some in n. congruence. }
    tauto.
Qed.

Lemma build_filter_passes minPrice maxPrice minQty maxQty :
  passes (build_filter minPrice maxPrice minQty maxQty) <->
  within minPrice price_ge JS.parseFloat r /\
  within maxPrice price_le JS.parseFloat r /\
  within minQty stock_ge JS.parseInt r /\
  within maxQty stock_le JS.parseInt r.
Proof.
  unfold build_filter.
  assert (B0 : balanced ([], [])) by reflexivity.
  pose proof (push_bound_balanced minPrice price_ge JS.parseFloat _ B0) as B1.
  pose proof (push_bound_balanced maxPrice price_le JS.parseFloat _ B1) as B2.
  pose proof (push_bound_balanced minQty stock_ge JS.parseInt _ B2) as B3.
  rewrite (push_bound_passes _ _ _ _ B3), (push_bound_passes _ _ _ _ B2),
    (push_bound_passes _ _ _ _ B1), (push_bound_passes _ _ _ _ B0).
  unfold passes. simpl. tauto.
Qed.

End Bounds.

Lemma build_filter_clauses minPrice maxPrice minQty maxQty :
  fst (build_filter minPrice maxPrice minQty maxQty) =
  map fst (filter (fun cv => JS.truthy (snd cv))
             [(price_ge, minPrice); (price_le, maxPrice);
              (stock_ge, minQty); (stock_le, maxQty)]).
Proof.
  unfold build_filter, push_bound.
  destruct minPrice as [a|], maxPrice as [b|], minQty as [c|], maxQty as [d|];
    cbn [filter snd];
    repeat match goal with
           | |- context [JS.truthy (Some ?s)] => destruct (JS.truthy (Some s))
           end; reflexivity.
Qed.

(** C6, amended: a bound that is missing or the empty string contributes
    no clause; every other supplied value, parseable or not, contributes
    its comparison with [parseFloat] (prices) or [parseInt] (quantities)
    of the value as parameter.  The clauses are conjoined in the order
    minPrice, maxPrice, minQty, maxQty, the rows come ordered by product
    name, and nothing but a fault of the store keeps the answer from
    being a 200. *)
Theorem supplied_bounds_filter
  (minPrice maxPrice minQty maxQty : option string) (w : World) :
  calm 1 w ->
  exists rows,
    reply (get_products minPrice maxPrice minQty maxQty) w =
    {| status := 200; body := products_json rows |} /\
    ascending Listing.product_name rows /\
    (forall r, In r rows <->
               In r (join (tables (db w))) /\
               within minPrice price_ge JS.parseFloat r /\
               within maxPrice price_le JS.parseFloat r /\
               within minQty stock_ge JS.parseInt r /\
               within maxQty stock_le JS.parseInt r) /\
    fst (build_filter minPrice maxPrice minQty maxQty) =
    map fst (filter (fun cv => JS.truthy (snd cv))
               [(price_ge, minPrice); (price_le, maxPrice);
                (stock_ge, minQty); (stock_le, maxQty)]).
Proof.
  intros H1. unfold reply, get_products.
  pose proof (build_filter_passes) as P.
  pose proof (build_filter_clauses minPrice maxPrice minQty maxQty) as C.
  specialize (fun r => P r minPrice maxPrice minQty maxQty).
  destruct (build_filter minPrice maxPrice minQty maxQty) as [cs vs].
  rewrite (db_all_calm _ _ 0 w H1). cbn [fst snd]. unfold json, ret. cbn [fst].
  eexists. split; [reflexivity|]. split; [apply order_by_ascending|].
  split; [|exact C].
  intros r. unfold select_products. rewrite order_by_In, filter_In.
  cbn [fst snd] in P. rewrite P. tauto.
Qed.

Lemma supplied_bounds_filter_witness :
  exists rows,
    reply (get_products (Some "10") None (Some "") (Some "7")) (world shop) =
    {| status := 200; body := products_json rows |} /\
    ascending Listing.product_name rows /\
    (forall r, In r rows <->
               In r (join (tables (db (world shop)))) /\
               within (Some "10") price_ge JS.parseFloat r /\
               within None price_le JS.parseFloat r /\
               within (Some "") stock_ge JS.parseInt r /\
               within (Some "7") stock_le JS.parseInt r) /\
    fst (build_filter (Some "10") None (Some "") (Some "7")) =
    map fst (filter (fun cv => JS.truthy (snd cv))
               [(price_ge, Some "10"); (price_le, None);
                (stock_ge, Some ""); (stock_le, Some "7")]).
Proof.
  apply (supplied_bounds_filter (Some "10") None (Some "") (Some "7")
           (world shop)).
  unfold calm; simpl; constructor.
Defined.

(** C6 as stated fails for a value that does not parse: [minPrice=abc]
    still puts its clause in the query, bound to NaN, and the listing that
    shows two products without the bound shows none with it. *)
Lemma unparseable_bound_is_not_absent :
  JS.parseFloat "abc" = JS.NaN /\
  build_filter (Some "abc") None None None = ([price_ge], [JS.NaN]) /\
  build_filter None None None None = ([], []) /\
  listed_ids (reply (get_products (Some "abc") None None None) (world shop))
  = [] /\
  listed_ids (reply (get_products None None None None) (world shop))
  = [1; 2].
Proof. repeat split. Qed.

(** ** Categories *)

(** What the INSERT does to the category names: nothing if the name is
    taken, otherwise the name is added at the end. *)
Lemma insert_category_names (name : string) (d : Database) :
  let names := map Category.category_name (Categories (tables d)) in
  let d' := fst (exec (INSERT_Categories name) d) in
  let r := snd (exec (INSERT_Categories name) d) in
  (In name names /\ r = failed unique_failed /\ d' = d) \/
  (~ In name names /\ err r = None /\
   map Category.category_name (Categories (tables d')) = (names ++ [name])%list).
Proof.
  cbv zeta. unfold exec, exec_dml.
  destruct (existsb _ _) eqn:E.
  - left. apply name_taken in E. cbn [fst snd]. destruct d; auto.
  - right. cbn [fst snd tables Categories err ok]. split; [|split].
    + intros H. apply name_taken in H. congruence.
    + reflexivity.
    + rewrite map_app. reflexivity.
Qed.

Lemma createCategory_taken (name : string) (n : nat) (w : World) :
  calm (S n) w ->
  In name (map Category.category_name (categories w)) ->
  exists fs,
    createCategory name w =
    (conflict_reply, {| db := db w; faults := fs |}) /\
    calm n {| db := db w; faults := fs |}.
Proof.
  intros H1 Hin. unfold createCategory. run_stmt H1.
  destruct (insert_category_names name (db w))
    as [(_ & Hr & Hd)|(Hnew & _)]; [|contradiction].
  rewrite Hr, Hd. cbn [err failed].
  change (JS.includes unique_failed "UNIQUE constraint failed") with true.
  cbv iota. eexists. split; [reflexivity|].
  apply (calm_advance n (db w) w H1).
Qed.

Lemma createCategory_fresh (name : string) (n : nat) (w : World) :
  calm (S n) w ->
  ~ In name (map Category.category_name (categories w)) ->
  exists r w1,
    createCategory name w = (r, w1) /\ status r = 201 /\
    calm n w1 /\
    map Category.category_name (categories w1) =
    (map Category.category_name (categories w) ++ [name])%list.
Proof.
  intros H1 Hnew. unfold createCategory. run_stmt H1.
  destruct (insert_category_names name (db w))
    as [(Hin & _)|(_ & Hr & Hn)]; [contradiction|].
  rewrite Hr. do 2 eexists. split; [reflexivity|]. split; [reflexivity|].
  split; [apply (calm_advance n _ w H1) | exact Hn].
Qed.

(** A request with a non-empty name passes the name check. *)
Lemma post_categories_named (name : string) :
  name <> "" -> post_categories (Some name) = createCategory name.
Proof.
  intros Hname. unfold post_categories.
  assert (T : negb (JS.truthy (Some name)) = false)
    by (apply negb_false_iff, truthy_some, Hname).
  now rewrite T.
Qed.

(** C7: of two createCategory calls with the same name, the second is
    answered 409 "Category already exists." - the store's UNIQUE failure
    turned into a message, not passed on as an error - and the table then
    holds exactly one row with that name; the first is answered 201 if
    the name was new.  The table satisfies its UNIQUE constraint and the
    store raises no fault of its own on the two inserts. *)
Theorem duplicate_category_conflicts (name : string) (w : World) :
  calm 2 w -> unique_names (categories w) ->
  let w1 := after (createCategory name) w in
  let r2 := reply (createCategory name) w1 in
  let w2 := after (createCategory name) w1 in
  r2 = conflict_reply /\
  count_occ string_dec (map Category.category_name (categories w2)) name
  = 1%nat /\
  categories w2 = categories w1 /\
  (~ In name (map Category.category_name (categories w)) ->
   status (reply (createCategory name) w) = 201).
Proof.
  intros H2 Huniq w1 r2 w2.
  assert (Hfirst :
    calm 1 w1 /\ unique_names (categories w1) /\
    In name (map Category.category_name (categories w1)) /\
    (~ In name (map Category.category_name (categories w)) ->
     status (reply (createCategory name) w) = 201)).
  { subst w1. unfold reply, after.
    destruct (in_dec string_dec name
                (map Category.category_name (categories w))) as [Hin|Hnew].
    - destruct (createCategory_taken name 1 w H2 Hin) as (fs & E & H1).
      rewrite E. cbn [fst snd]. repeat split; try assumption.
      intros Hnot. contradiction.
    - destruct (createCategory_fresh name 1 w H2 Hnew)
        as (r & w1 & E & Hr & H1 & Hn).
      rewrite E. cbn [fst snd]. unfold unique_names in *. rewrite Hn.
      repeat split; try assumption.
      + now apply NoDup_snoc.
      + apply in_or_app. right. now left.
      + intros _. exact Hr. }
  destruct Hfirst as (H1 & Huniq1 & Hin1 & Hfresh).
  destruct (createCategory_taken name 0 w1 H1 Hin1) as (fs & E & _).
  subst r2 w2. unfold reply, after. rewrite E. cbn [fst snd].
  repeat split; try assumption.
  apply NoDup_count_occ'; assumption.
Qed.

Lemma duplicate_category_conflicts_witness :
  let w1 := after (createCategory "Toys") (world shop) in
  let r2 := reply (createCategory "Toys") w1 in
  let w2 := after (createCategory "Toys") w1 in
  r2 = conflict_reply /\
  count_occ string_dec (map Category.category_name (categories w2)) "Toys"
  = 1%nat /\
  categories w2 = categories w1 /\
  (~ In "Toys" (map Category.category_name (categories (world shop))) ->
   status (reply (createCategory "Toys") (world shop)) = 201).
Proof.
  apply (duplicate_category_conflicts "Toys" (world shop)).
  - unfold calm; simpl; constructor.
  - unfold unique_names; simpl.
    repeat constructor; simpl; intuition discriminate.
Defined.

(** The same through the route, for a name the handler lets through. *)
Example scenario_duplicate_category :
  let w1 := after (post_categories (Some "Toys")) (world shop) in
  status (reply (post_categories (Some "Toys")) (world shop)) = 201 /\
  reply (post_categories (Some "Toys")) w1 = conflict_reply /\
  map Category.category_name (categories w1)
  = ["Electronics"; "Books"; "Toys"].
Proof. repeat split. Qed.

(** ** Update and delete *)

Lemma rows_with_id_zero (id : Z) (ps : list Product.row) :
  rows_with_id id ps = 0 <-> stock_of id ps = None.
Proof.
  unfold rows_with_id, stock_of. split; intros H.
  - destruct (find (has_id id) ps) as [p|] eqn:F; [|reflexivity].
    apply find_some in F. destruct F as [Hin Hid]. exfalso.
    apply (filter_some _ _ _ Hin Hid). apply count_zero.
    now apply Z.eqb_eq.
  - destruct (find (has_id id) ps) as [p|] eqn:F; [discriminate|].
    rewrite filter_none; [reflexivity|].
    intros p Hp. apply (find_none _ _ F p Hp).
Qed.

(** C8: the answer to an update or a delete is decided by the number of
    rows the statement changed: 404 "Product not found" when it changed
    none, which is exactly when no product has the id, and otherwise 200
    with that number as [changes]; a 500 carrying the store's message is
    sent only when the store reports an error. *)
Theorem update_delete_by_rows_affected
  (id : Z) (name : string) (price : Q) (quantity : Z)
  (category_id : option Z) (w : World) :
  reply (put_products id name price quantity category_id) w =
  by_rows_affected (hd None (faults w)) (rows_with_id id (products w))
    "Updated successfully" /\
  reply (delete_products id) w =
  by_rows_affected (hd None (faults w)) (rows_with_id id (products w))
    "Deleted successfully" /\
  (rows_with_id id (products w) = 0 <-> stock_of id (products w) = None).
Proof.
  split; [|split; [|apply rows_with_id_zero]];
    unfold reply, put_products, delete_products, by_rows_affected;
    destruct (hd None (faults w)) as [m|] eqn:F.
  - rewrite (db_run_fault _ _ m w F). reflexivity.
  - rewrite (db_run_calm _ _ 0 w (calm_one w F)).
    change (snd (exec (UPDATE_Products name price quantity category_id id)
                   (db w)))
      with (ok 0 (rows_with_id id (products w))).
    cbn [err changes ok]. destruct (rows_with_id id (products w) =? 0);
      reflexivity.
  - rewrite (db_run_fault _ _ m w F). reflexivity.
  - rewrite (db_run_calm _ _ 0 w (calm_one w F)).
    change (snd (exec (DELETE_Products id) (db w)))
      with (ok 0 (rows_with_id id (products w))).
    cbn [err changes ok]. destruct (rows_with_id id (products w) =? 0);
      reflexivity.
Qed.

Lemma update_delete_by_rows_affected_witness :
  reply (put_products 7 "Pen" (1 # 1) 3 None) (world shop) =
  by_rows_affected None 0 "Updated successfully" /\
  reply (delete_products 7) (world shop) =
  by_rows_affected None 0 "Deleted successfully" /\
  (rows_with_id 7 (products (world shop)) = 0 <->
   stock_of 7 (products (world shop)) = None).
Proof.
  exact (update_delete_by_rows_affected 7 "Pen" (1 # 1) 3 None (world shop)).
Defined.

(** ** Listings *)

(** C9: listing the categories, or the products without bounds, leaves
    the database as it was, so that a second listing returns what the
    first returned; the rows are those of the table (of the join, for
    products) in ascending order of category name (of product name).  The
    store raises no fault of its own on the two queries. *)
Theorem listings_repeat (w : World) :
  calm 2 w ->
  let cats := select_categories (tables (db w)) in
  let prods := select_products [] [] (tables (db w)) in
  let w1 := after get_categories w in
  let w2 := after (get_products None None None None) w in
  (reply get_categories w = {| status := 200; body := categories_json cats |} /\
   reply get_categories w1 = reply get_categories w /\
   db w1 = db w /\
   ascending Category.category_name cats /\
   Permutation cats (categories w)) /\
  (reply (get_products None None None None) w =
   {| status := 200; body := products_json prods |} /\
   reply (get_products None None None None) w2 =
   reply (get_products None None None None) w /\
   db w2 = db w /\
   ascending Listing.product_name prods /\
   Permutation prods (join (tables (db w)))).
Proof.
  intros H2 cats prods w1 w2.
  pose proof (calm_less _ _ H2) as H1.
  pose proof (calm_advance 1 (db w) w H2) as H1'.
  assert (E1 : get_categories w =
               ({| status := 200; body := categories_json cats |},
                advance (db w) w)).
  { unfold get_categories. now rewrite (db_all_calm _ _ 0 w H1). }
  assert (E2 : get_products None None None None w =
               ({| status := 200; body := products_json prods |},
                advance (db w) w)).
  { unfold get_products. cbn [build_filter push_bound].
    now rewrite (db_all_calm _ _ 0 w H1). }
  subst w1 w2. unfold reply, after. rewrite E1, E2. cbn [fst snd].
  split; (split; [reflexivity|split; [|split; [reflexivity|split]]]).
  - unfold get_categories. now rewrite (db_all_calm _ _ 0 _ H1').
  - apply order_by_ascending.
  - apply order_by_perm.
  - unfold get_products. cbn [build_filter push_bound].
    now rewrite (db_all_calm _ _ 0 _ H1').
  - apply order_by_ascending.
  - unfold prods, select_products. cbn [combine forallb].
    eapply perm_trans; [apply order_by_perm|].
    assert (F : forall l : list Listing.row, filter (fun _ => true) l = l).
    { induction l as [|x l IH]; simpl; [reflexivity | now rewrite IH]. }
    rewrite F. apply Permutation_refl.
Qed.

Lemma listings_repeat_witness :
  let w := world shop in
  let cats := select_categories (tables (db w)) in
  let prods := select_products [] [] (tables (db w)) in
  let w1 := after get_categories w in
  let w2 := after (get_products None None None None) w in
  (reply get_categories w = {| status := 200; body := categories_json cats |} /\
   reply get_categories w1 = reply get_categories w /\
   db w1 = db w /\
   ascending Category.category_name cats /\
   Permutation cats (categories w)) /\
  (reply (get_products None None None None) w =
   {| status := 200; body := products_json prods |} /\
   reply (get_products None None None None) w2 =
   reply (get_products None None None None) w /\
   db w2 = db w /\
   ascending Listing.product_name prods /\
   Permutation prods (join (tables (db w)))).
Proof.
  apply (listings_repeat (world shop)).
  unfold calm; simpl; constructor.
Defined.

(** ** Uncategorized products *)

Lemma join_origin (t : Tables) (r : Listing.row) :
  In r (join t) ->
  exists p c, In p (Products t) /\ In c (Categories t) /\
              Product.category_id p = Some (Category.category_id c) /\
              r = joined p c.
Proof.
  unfold join. rewrite in_flat_map. intros (p & Hp & Hr).
  apply in_map_iff in Hr. destruct Hr as (c & <- & Hc).
  apply filter_In in Hc. destruct Hc as [Hc Hon].
  exists p, c. repeat split; try assumption.
  unfold on_category in Hon. destruct (Product.category_id p) as [k|];
    [|discriminate].
  apply Z.eqb_eq in Hon. now subst k.
Qed.

(** C10: a product whose [category_id] is NULL is in no product listing,
    whatever the bounds: the listing is an inner join on [category_id]. *)
Theorem uncategorized_never_listed
  (p : Product.row) (minPrice maxPrice minQty maxQty : option string)
  (w : World) :
  primary_key (products w) ->
  In p (products w) -> Product.category_id p = None ->
  ~ In (Product.product_id p)
       (listed_ids (reply (get_products minPrice maxPrice minQty maxQty) w)).
Proof.
  intros Hpk Hp Hnone Hin.
  unfold reply, get_products, listed_ids in Hin.
  destruct (build_filter minPrice maxPrice minQty maxQty) as [cs vs].
  unfold db_all, bind, next_fault in Hin.
  assert (Hrows : In (Product.product_id p)
                    (map Listing.product_id
                       (select_products cs vs (tables (db w))))).
  { destruct (faults w) as [|[m|] fs]; simpl in Hin;
      [exact Hin | contradiction | exact Hin]. }
  apply in_map_iff in Hrows. destruct Hrows as (r & Hid & Hr).
  unfold select_products in Hr. apply order_by_In in Hr.
  apply filter_In in Hr. destruct Hr as [Hr _].
  apply join_origin in Hr. destruct Hr as (p' & c & Hp' & _ & Hcat & ->).
  simpl in Hid.
  assert (p' = p) by (apply (same_key_same_row (products w)); assumption).
  subst p'. congruence.
Qed.

Lemma uncategorized_never_listed_witness :
  ~ In 3 (listed_ids (reply (get_products None None None None)
                        (world shop_with_loose_item))).
Proof.
  apply (uncategorized_never_listed
           (product 3 "Apples" (99 # 100) 200 None) None None None None
           (world shop_with_loose_item)).
  - unfold primary_key; simpl. repeat constructor; simpl; intuition lia.
  - simpl. auto.
  - reflexivity.
Defined.

(** ** Scenarios *)

(** Stock 10 and 5: moving 10 from product 1 to product 2 succeeds and
    leaves 0 and 15; moving 1 more is refused and changes nothing. *)
Example scenario_drain_then_refuse :
  let w1 := after (post_inventory_adjust 1 2 10) (world shop) in
  let w2 := after (post_inventory_adjust 1 2 1) w1 in
  reply (post_inventory_adjust 1 2 10) (world shop) = success_reply /\
  stock_of 1 (products w1) = Some 0 /\
  stock_of 2 (products w1) = Some 15 /\
  reply (post_inventory_adjust 1 2 1) w1 = insufficient_reply /\
  products w2 = products w1.
Proof. repeat split. Qed.

(** Product 999 does not exist: the transfer is refused with the
    destination message and product 1 keeps its 10 units. *)
Example scenario_missing_destination :
  reply (post_inventory_adjust 1 999 1) (world shop) = destination_reply /\
  after (post_inventory_adjust 1 999 1) (world shop) = world shop.
Proof. repeat split. Qed.

(** A store that fails COMMIT: the answer is the 500 that flags the
    consistency risk, and the transaction stays open. *)
Example scenario_commit_fails :
  let w := {| db := db (world shop);
              faults := [None; None; None; Some "SQLITE_IOERR: disk I/O error"] |} in
  reply (post_inventory_adjust 1 2 3) w =
  {| status := 500;
     body := message_error_json "Commit failed (data consistency risk)."
               "SQLITE_IOERR: disk I/O error" |} /\
  txn (db (after (post_inventory_adjust 1 2 3) w)) = Some shop.
Proof. repeat split. Qed.

(** The listing leaves out the product without a category and orders the
    rest by name. *)
Example scenario_listing :
  listed_ids (reply (get_products None None None None)
                (world shop_with_loose_item)) = [1; 2] /\
  listed_ids (reply (get_products (Some "10") None (Some "") (Some "7"))
                (world shop_with_loose_item)) = [2].
Proof. repeat split. Qed.

Example scenario_listing_sql :
  products_sql (fst (build_filter (Some "abc") None (Some "") (Some "3"))) =
  "SELECT p.product_id, p.product_name, p.price, p.stock_quantity, c.category_name FROM Products p JOIN Categories c ON p.category_id = c.category_id WHERE p.price >= ? AND p.stock_quantity <= ? ORDER BY p.product_name".
Proof. reflexivity. Qed.

(** An empty category name is refused before the store is touched. *)
Example scenario_empty_category_name :
  post_categories (Some "") (world shop) =
  ({| status := 400; body := message_json "Category name is required" |},
   world shop).
Proof. reflexivity. Qed.

Example parseInt_px : JS.parseInt "  42px" = JS.Num (42 # 1).
Proof. reflexivity. Qed.

Example parseInt_hex : JS.parseInt "-0x1F" = JS.Num (-31 # 1).
Proof. reflexivity. Qed.

Example parseInt_letters : JS.parseInt "abc" = JS.NaN.
Proof. reflexivity. Qed.

Example parseFloat_letters : JS.parseFloat "abc" = JS.NaN.
Proof. reflexivity. Qed.

Example parseFloat_dot : JS.parseFloat "." = JS.NaN.
Proof. reflexivity. Qed.

Example parseFloat_exponent :
  match JS.parseFloat "12.5e1x" with
  | JS.Num q => Qeq_bool q (125 # 1)
  | _ => false
  end = true.
Proof. vm_compute. reflexivity. Qed.

Example includes_unique :
  JS.includes unique_failed "UNIQUE constraint failed" = true.
Proof. reflexivity. Qed.


(* ===================================================================== *)
(** * Further properties of the handlers *)
(* ===================================================================== *)

Import Startup Measures.

(** ** More on the stock transfer *)







Lemma description_updated (where_ : Product.row -> bool) (f : Product.row -> Z)
  (ps : list Product.row) :
  map description (map (fun p => if where_ p then set_stock (f p) p else p) ps)
  = map description ps.
Proof.
  rewrite map_map. apply map_ext. intros p. now destruct (where_ p).
Qed.

(** X2: a transfer never changes anything but stock quantities: whatever its
    outcome and whatever the store fails, every product keeps its id,
    name, price and category, in the same order, and the categories are
    untouched. *)
Theorem transfer_changes_only_stock (from to q : Z) (w : World) :
  let w' := after (post_inventory_adjust from to q) w in
  map description (products w') = map description (products w) /\
  categories w' = categories w.
Proof.
  cbv zeta. unfold products at 1, categories at 1.
  apply (transfer_tables
           (fun t => map description (Products t) =
                     map description (products w) /\
                     Categories t = categories w)).
  - split; reflexivity.
  - split; [|reflexivity]. cbn [with_products Products].
    unfold debited. apply description_updated.
  - split; [|reflexivity]. cbn [with_products Products].
    unfold credited, debited. now rewrite !description_updated.
Qed.



Lemma hd_after_three {A} (d : A) (l : list A) :
  hd d (tl (tl (tl l))) = nth 3 l d.
Proof. destruct l as [|a [|b [|c [|e l]]]]; reflexivity. Qed.

Lemma transfer_commit_fails (from to q : Z) (message : string) (w : World) :
  idle w -> calm 3 w -> nth 3 (faults w) None = Some message ->
  rows_in_stock q from (products w) <> 0 ->
  rows_with_id to (products w) <> 0 ->
  exists fs,
    post_inventory_adjust from to q w =
    ({| status := 500;
        body := message_error_json "Commit failed (data consistency risk)."
                  message |},
     {| db := {| tables :=
                   with_products (tables (db w))
                     (credited q to (debited q from (products w)));
                 txn := Some (tables (db w)) |};
        faults := fs |}).
Proof.
  intros Hidle H3 Hm Hn Hd. eexists.
  begin_transfer Hidle H3. next_calm H3 H2.
  run_debit H2 H1. fold (products w) in *.
  apply Z.eqb_neq in Hn. rewrite Hn in *. cbv beta iota.
  run_credit H1 H0. rewrite rows_with_id_debited in *.
  apply Z.eqb_neq in Hd. rewrite Hd in *. cbv beta iota.
  rewrite (db_run_fault _ _ message).
  - reflexivity.
  - unfold advance. cbn [faults]. now rewrite hd_after_three.
Qed.

(** X4: when the store fails COMMIT after both updates went through, the
    transfer answers 500 with the consistency-risk message and the
    store's own; it attempts no rollback, so both updates stay applied
    inside the transaction it leaves open. *)
Theorem transfer_commit_failure (from to q a b : Z) (message : string)
  (w : World) :
  idle w -> calm 3 w -> nth 3 (faults w) None = Some message ->
  stock_of from (products w) = Some a -> q <= a ->
  stock_of to (products w) = Some b ->
  let w' := after (post_inventory_adjust from to q) w in
  reply (post_inventory_adjust from to q) w =
  {| status := 500;
     body := message_error_json "Commit failed (data consistency risk)."
               message |} /\
  db w' =
  {| tables := with_products (tables (db w))
                 (credited q to (debited q from (products w)));
     txn := Some (tables (db w)) |}.
Proof.
  intros Hidle H3 Hm Ha Hq Hb.
  destruct (debited_source q from a _ Ha Hq) as [Hn _].
  destruct (credited_destination q to b _ Hb) as [Hd _].
  destruct (transfer_commit_fails from to q message w Hidle H3 Hm Hn Hd)
    as [fs E].
  cbv zeta. unfold reply, after. rewrite E. split; reflexivity.
Qed.

Lemma transfer_commit_failure_witness :
  let w := {| db := db (world shop);
              faults := [None; None; None; Some "SQLITE_BUSY: database is locked"] |} in
  let w' := after (post_inventory_adjust 1 2 3) w in
  reply (post_inventory_adjust 1 2 3) w =
  {| status := 500;
     body := message_error_json "Commit failed (data consistency risk)."
               "SQLITE_BUSY: database is locked" |} /\
  db w' =
  {| tables := with_products (tables (db w))
                 (credited 3 2 (debited 3 1 (products w)));
     txn := Some (tables (db w)) |}.
Proof.
  apply (transfer_commit_failure 1 2 3 10 5 "SQLITE_BUSY: database is locked"
           {| db := db (world shop);
              faults := [None; None; None;
                         Some "SQLITE_BUSY: database is locked"] |}).
  - reflexivity.
  - unfold calm; simpl; repeat constructor.
  - reflexivity.
  - reflexivity.
  - lia.
  - reflexivity.
Defined.

(** X5: a transfer of quantity 0 between two existing products, the source not
    being in deficit, succeeds and leaves the database exactly as it
    was. *)
Theorem transfer_of_nothing (from to a b : Z) (w : World) :
  idle w -> calm 4 w ->
  stock_of from (products w) = Some a -> 0 <= a ->
  stock_of to (products w) = Some b ->
  reply (post_inventory_adjust from to 0) w = success_reply /\
  db (after (post_inventory_adjust from to 0) w) = db w.
Proof.
  intros Hidle H4 Ha Hq Hb.
  destruct (debited_source 0 from a _ Ha Hq) as [Hn _].
  destruct (credited_destination 0 to b _ Hb) as [Hd _].
  destruct (transfer_commits from to 0 w Hidle H4 Hn Hd) as [fs E].
  unfold reply, after. rewrite E. cbn [fst snd db]. split; [reflexivity|].
  assert (Hsame : credited 0 to (debited 0 from (products w)) = products w).
  { unfold credited, debited. rewrite map_map.
    rewrite <- (map_id (products w)) at 2. apply map_ext. intros p.
    destruct (in_stock 0 from p);
      [change (has_id to (set_stock (Product.stock_quantity p - 0) p))
         with (has_id to p)|];
      destruct (has_id to p); destruct p; unfold set_stock; simpl;
      f_equal; lia. }
  rewrite Hsame. rewrite <- (idle_eta w Hidle) at 2. f_equal.
  unfold products. destruct (tables (db w)); reflexivity.
Qed.

Lemma transfer_of_nothing_witness :
  reply (post_inventory_adjust 1 2 0) (world shop) = success_reply /\
  db (after (post_inventory_adjust 1 2 0) (world shop)) = db (world shop).
Proof.
  apply (transfer_of_nothing 1 2 10 5 (world shop)).
  - reflexivity.
  - unfold calm; simpl; constructor.
  - reflexivity.
  - lia.
  - reflexivity.
Defined.




(** ** Creating, updating and deleting products *)

Lemma db_eta (d : Database) : {| tables := tables d; txn := txn d |} = d.
Proof. destruct d; reflexivity. Qed.

Lemma with_products_same (t : Tables) : with_products t (Products t) = t.
Proof. destruct t; reflexivity. Qed.

Lemma find_snoc {A} (f : A -> bool) (l : list A) (x : A) :
  find f (l ++ [x]) =
  match find f l with
  | Some y => Some y
  | None => if f x then Some x else None
  end.
Proof.
  induction l as [|y l IH]; simpl; [reflexivity|].
  destruct (f y); [reflexivity | exact IH].
Qed.

Lemma find_absent (id : Z) (ps : list Product.row) :
  ~ In id (map Product.product_id ps) -> find (has_id id) ps = None.
Proof.
  intros H. destruct (find (has_id id) ps) as [p|] eqn:F; [|reflexivity].
  apply find_some in F. destruct F as [Hp Hid]. exfalso. apply H.
  apply Z.eqb_eq in Hid. rewrite <- Hid. now apply in_map.
Qed.

Lemma map_unmatched {A} (g : A -> bool) (set : A -> A) (l : list A) :
  (forall x, In x l -> g x = false) ->
  map (fun x => if g x then set x else x) l = l.
Proof.
  intros H. rewrite <- (map_id l) at 2. apply map_ext_in.
  intros x Hx. now rewrite (H x Hx).
Qed.

(** The product a creation stores. *)
Lemma post_products_runs (name : string) (price : Q) (quantity : Z)
  (category_id : option Z) (w : World) :
  calm 1 w ->
  let id := next_rowid (seq_Products (tables (db w)))
              (map Product.product_id (products w)) in
  post_products name price quantity category_id w =
  ({| status := 201; body := id_json id |},
   advance
     {| tables := fst (exec_dml
                         (INSERT_Products name price quantity category_id)
                         (tables (db w)));
        txn := txn (db w) |} w).
Proof.
  intros H1. cbv zeta. unfold post_products.
  rewrite (db_run_calm _ _ 0 w H1). reflexivity.
Qed.

(** X7: a product creation the store lets through answers 201 with an id no
    product carries yet, adds the product as given at the end of the
    table without touching the other rows, and the product is then found
    under that id. *)
Theorem create_then_lookup (name : string) (price : Q) (quantity : Z)
  (category_id : option Z) (w : World) :
  calm 1 w ->
  let w' := after (post_products name price quantity category_id) w in
  exists id,
    reply (post_products name price quantity category_id) w =
    {| status := 201; body := id_json id |} /\
    ~ In id (map Product.product_id (products w)) /\
    products w' =
    (products w ++ [product id name price quantity category_id])%list /\
    product_of id (products w') =
    Some (product id name price quantity category_id) /\
    categories w' = categories w.
Proof.
  intros H1. cbv zeta.
  exists (next_rowid (seq_Products (tables (db w)))
            (map Product.product_id (products w))).
  unfold reply, after. rewrite (post_products_runs _ _ _ _ w H1).
  cbn [fst snd]. split; [reflexivity|].
  split; [apply next_rowid_fresh|].
  split; [reflexivity|]. split; [|reflexivity].
  unfold product_of, products, advance. cbn [db tables exec_dml fst Products].
  rewrite find_snoc, find_absent by apply next_rowid_fresh.
  unfold has_id. cbn [Product.product_id]. now rewrite Z.eqb_refl.
Qed.

Lemma create_then_lookup_witness :
  let w' := after (post_products "Pen" (3 # 2) 40 (Some 2)) (world shop) in
  exists id,
    reply (post_products "Pen" (3 # 2) 40 (Some 2)) (world shop) =
    {| status := 201; body := id_json id |} /\
    ~ In id (map Product.product_id (products (world shop))) /\
    products w' =
    (products (world shop) ++ [product id "Pen" (3 # 2) 40 (Some 2)])%list /\
    product_of id (products w') = Some (product id "Pen" (3 # 2) 40 (Some 2)) /\
    categories w' = categories (world shop).
Proof.
  apply (create_then_lookup "Pen" (3 # 2) 40 (Some 2) (world shop)).
  unfold calm; simpl; constructor.
Defined.

(** The AUTOINCREMENT counter of [Products] never goes down. *)
Lemma seq_Products_kept (req : Request) (w : World) :
  seq_Products (tables (db w)) <=
  seq_Products (tables (db (after (handle req) w))).
Proof.
  set (n := seq_Products (tables (db w))).
  assert (One : forall s (k : RunResult -> M Response),
             (forall r w0, snd (k r w0) = w0) ->
             s <> BEGIN_TRANSACTION -> s <> ROLLBACK -> s <> COMMIT ->
             n <= seq_Products (tables (db (after (bind (db_run s) k) w)))).
  { intros s k Hk Hb Hr Hc.
    apply (db_run_tables (fun t => n <= seq_Products t)); try assumption.
    - subst n; lia.
    - subst n. destruct s; simpl; try lia.
      + destruct (existsb _ _); simpl; lia.
      + unfold next_rowid. lia. }
  destruct req; cbn [handle].
  - unfold get_categories. rewrite db_all_tables; [subst n; lia | ends_in_json].
  - unfold get_products.
    destruct (build_filter minPrice maxPrice minQty maxQty) as [cs vs].
    rewrite db_all_tables; [subst n; lia | ends_in_json].
  - unfold post_categories. destruct name as [s|]; [|subst n; cbn; lia].
    destruct (negb (JS.truthy (Some s))); [subst n; cbn; lia|].
    unfold createCategory. apply One; try discriminate; ends_in_json.
  - apply One; try discriminate; ends_in_json.
  - apply One; try discriminate; ends_in_json.
  - apply One; try discriminate; ends_in_json.
  - apply (transfer_tables (fun t => n <= seq_Products t)); subst n;
      cbn [with_products seq_Products]; lia.
Qed.

Lemma seq_Products_served (reqs : list Request) (w : World) :
  seq_Products (tables (db w)) <= seq_Products (tables (db (serve reqs w))).
Proof.
  unfold serve. revert w.
  induction reqs as [|req reqs IH]; intros w; simpl; [lia|].
  eapply Z.le_trans; [apply seq_Products_kept | apply IH].
Qed.

Lemma created_id_seq (name : string) (price : Q) (quantity : Z)
  (category_id : option Z) (id : Z) (w : World) :
  created_id (reply (post_products name price quantity category_id) w)
  = Some id ->
  seq_Products (tables (db w)) < id /\
  seq_Products
    (tables (db (after (post_products name price quantity category_id) w)))
  = id.
Proof.
  unfold reply, after, post_products.
  destruct (hd None (faults w)) as [m|] eqn:F.
  - rewrite (db_run_fault _ _ m w F). discriminate.
  - rewrite (db_run_calm _ _ 0 w (calm_one w F)).
    cbn. intros [= <-]. unfold next_rowid. split; [lia | reflexivity].
Qed.

(** X8: product ids are never handed out twice: whatever is served in between
    - deletions included - a later creation gets a larger id than an
    earlier one. *)
Theorem product_ids_never_reused
  (name name' : string) (price price' : Q) (quantity quantity' : Z)
  (category_id category_id' : option Z) (reqs : list Request)
  (id id' : Z) (w : World) :
  let w1 := serve reqs (after (post_products name price quantity category_id) w) in
  created_id (reply (post_products name price quantity category_id) w)
  = Some id ->
  created_id (reply (post_products name' price' quantity' category_id') w1)
  = Some id' ->
  id < id'.
Proof.
  cbv zeta. intros H H'.
  apply created_id_seq in H. apply created_id_seq in H'.
  pose proof (seq_Products_served reqs
                (after (post_products name price quantity category_id) w)).
  lia.
Qed.

Lemma product_ids_never_reused_witness :
  let w1 := serve [DELETE_products 3; DELETE_products 1]
              (after (post_products "Pen" (3 # 2) 40 (Some 2)) (world shop)) in
  created_id (reply (post_products "Pen" (3 # 2) 40 (Some 2)) (world shop))
  = Some 3 /\
  created_id (reply (post_products "Ink" (5 # 1) 7 None) w1) = Some 4 /\
  3 < 4.
Proof.
  split; [reflexivity|]. split; [reflexivity|].
  apply (product_ids_never_reused "Pen" "Ink" (3 # 2) (5 # 1) 40 7
           (Some 2) None [DELETE_products 3; DELETE_products 1] 3 4
           (world shop)); reflexivity.
Defined.

(** X9: when the store fails the one statement of a listing, a product
    creation, an update or a deletion, the answer is a 500 carrying the
    store's message as it came, and the database is untouched. *)
Theorem store_fault_passed_on (req : Request) (message : string) (w : World) :
  hd None (faults w) = Some message ->
  match req with
  | POST_categories _ | POST_inventory_adjust _ _ _ => True
  | _ =>
      reply (handle req) w = store_error message /\
      db (after (handle req) w) = db w
  end.
Proof.
  intros F. destruct req; cbn [handle]; try exact I;
    unfold reply, after, get_categories, get_products, post_products,
      put_products, delete_products.
  - unfold bind, db_all, bind, next_fault.
    destruct (faults w) as [|f fs]; [discriminate|].
    simpl in F; subst f. split; reflexivity.
  - destruct (build_filter minPrice maxPrice minQty maxQty) as [cs vs].
    unfold bind, db_all, bind, next_fault.
    destruct (faults w) as [|f fs]; [discriminate|].
    simpl in F; subst f. split; reflexivity.
  - rewrite (db_run_fault _ _ message w F). split; reflexivity.
  - rewrite (db_run_fault _ _ message w F). split; reflexivity.
  - rewrite (db_run_fault _ _ message w F). split; reflexivity.
Qed.

Lemma store_fault_passed_on_witness :
  reply (handle (DELETE_products 1))
    {| db := db (world shop); faults := [Some "SQLITE_IOERR: disk I/O error"] |}
  = store_error "SQLITE_IOERR: disk I/O error" /\
  db (after (handle (DELETE_products 1))
        {| db := db (world shop);
           faults := [Some "SQLITE_IOERR: disk I/O error"] |})
  = db (world shop).
Proof.
  apply (store_fault_passed_on (DELETE_products 1)
           "SQLITE_IOERR: disk I/O error"
           {| db := db (world shop);
              faults := [Some "SQLITE_IOERR: disk I/O error"] |}).
  reflexivity.
Defined.

Lemma put_products_runs (id : Z) (name : string) (price : Q) (quantity : Z)
  (category_id : option Z) (w : World) :
  calm 1 w ->
  put_products id name price quantity category_id w =
  (by_rows_affected None (rows_with_id id (products w)) "Updated successfully",
   advance
     {| tables :=
          with_products (tables (db w))
            (map (fun p => if has_id id p
                           then set_fields name price quantity category_id p
                           else p) (products w));
        txn := txn (db w) |} w).
Proof.
  intros H1. unfold put_products. rewrite (db_run_calm _ _ 0 w H1).
  change (snd (exec (UPDATE_Products name price quantity category_id id)
                 (db w)))
    with (ok 0 (rows_with_id id (products w))).
  cbn [err changes ok by_rows_affected].
  destruct (rows_with_id id (products w) =? 0); reflexivity.
Qed.

(** X10: an update of an existing product the store lets through answers 200,
    after which the product found under the id carries exactly the name,
    price, quantity and category of the request - a category left out
    becomes NULL -; no other product, and no id, changes. *)
Theorem update_then_lookup (id : Z) (name : string) (price : Q)
  (quantity : Z) (category_id : option Z) (p0 : Product.row) (w : World) :
  calm 1 w -> product_of id (products w) = Some p0 ->
  let w' := after (put_products id name price quantity category_id) w in
  status (reply (put_products id name price quantity category_id) w) = 200 /\
  product_of id (products w') =
  Some (product id name price quantity category_id) /\
  (forall i, i <> id ->
             product_of i (products w') = product_of i (products w)) /\
  map Product.product_id (products w') = map Product.product_id (products w).
Proof.
  intros H1 Hp. cbv zeta. unfold reply, after.
  rewrite (put_products_runs _ _ _ _ _ w H1). cbn [fst snd].
  set (d := {| tables := _; txn := _ |}).
  assert (Hps : products (advance d w) =
                map (fun p => if has_id id p
                              then set_fields name price quantity category_id p
                              else p) (products w))
    by reflexivity.
  rewrite Hps. clear Hps d.
  assert (Hid : has_id id p0 = true)
    by (apply find_some in Hp; tauto).
  split; [|split; [|split]].
  - assert (Hn : rows_with_id id (products w) <> 0).
    { intros E. apply rows_with_id_zero in E. unfold stock_of in E.
      unfold product_of in Hp. rewrite Hp in E. discriminate. }
    apply Z.eqb_neq in Hn. unfold by_rows_affected. now rewrite Hn.
  - unfold product_of in *.
    rewrite (find_updated (has_id id)
               (set_fields name price quantity category_id)
               (fun p => eq_refl)).
    rewrite Hp. cbn [option_map]. rewrite Hid.
    unfold set_fields, product. apply Z.eqb_eq in Hid. now rewrite Hid.
  - intros i Hi. unfold product_of.
    rewrite (find_updated (has_id id)
               (set_fields name price quantity category_id)
               (fun p => eq_refl)).
    destruct (find (has_id i) (products w)) as [p|] eqn:F; [|reflexivity].
    cbn [option_map]. apply find_some in F. destruct F as [_ F].
    destruct (has_id id p) eqn:E; [|reflexivity].
    unfold has_id in *. apply Z.eqb_eq in E, F. congruence.
  - apply (updated_ids (has_id id)
             (set_fields name price quantity category_id)).
    reflexivity.
Qed.

Lemma update_then_lookup_witness :
  let w' := after (put_products 2 "Novella" (9 # 1) 7 None) (world shop) in
  status (reply (put_products 2 "Novella" (9 # 1) 7 None) (world shop)) = 200 /\
  product_of 2 (products w') = Some (product 2 "Novella" (9 # 1) 7 None) /\
  (forall i, i <> 2 ->
             product_of i (products w') = product_of i (products (world shop))) /\
  map Product.product_id (products w') =
  map Product.product_id (products (world shop)).
Proof.
  apply (update_then_lookup 2 "Novella" (9 # 1) 7 None
           (product 2 "Novel" (1450 # 100) 5 (Some 2)) (world shop)).
  - unfold calm; simpl; constructor.
  - reflexivity.
Defined.

Lemma no_row_with_id (id : Z) (ps : list Product.row) :
  product_of id ps = None -> forall p, In p ps -> has_id id p = false.
Proof. intros H p Hp. exact (find_none _ _ H p Hp). Qed.

Lemma filter_all {A} (f : A -> bool) (l : list A) :
  (forall x, In x l -> f x = true) -> filter f l = l.
Proof.
  induction l as [|x l IH]; simpl; intros H; [reflexivity|].
  rewrite (H x (or_introl eq_refl)). f_equal. apply IH.
  intros y Hy. apply H. now right.
Qed.

(** X11: an update or a deletion under an id no product carries leaves the
    database exactly as it was, whether the store fails the statement or
    not. *)
Theorem missing_id_changes_nothing (id : Z) (name : string) (price : Q)
  (quantity : Z) (category_id : option Z) (w : World) :
  product_of id (products w) = None ->
  db (after (put_products id name price quantity category_id) w) = db w /\
  db (after (delete_products id) w) = db w.
Proof.
  intros H. pose proof (no_row_with_id _ _ H) as Hno.
  split.
  - unfold put_products.
    apply (db_run_db (fun d => d = db w)); try discriminate;
      [ends_in_json | reflexivity |].
    cbn [exec_dml update fst]. unfold products in Hno.
    rewrite (map_unmatched (has_id id)) by exact Hno.
    rewrite with_products_same. apply db_eta.
  - unfold delete_products.
    apply (db_run_db (fun d => d = db w)); try discriminate;
      [ends_in_json | reflexivity |].
    cbn [exec_dml delete fst]. unfold products in Hno.
    rewrite filter_all
      by (intros p Hp; rewrite (Hno p Hp); reflexivity).
    rewrite with_products_same. apply db_eta.
Qed.

Lemma missing_id_changes_nothing_witness :
  db (after (put_products 7 "Pen" (1 # 1) 3 None) (world shop))
  = db (world shop) /\
  db (after (delete_products 7) (world shop)) = db (world shop).
Proof.
  apply (missing_id_changes_nothing 7 "Pen" (1 # 1) 3 None (world shop)).
  reflexivity.
Defined.

Lemma delete_products_runs (id : Z) (w : World) :
  calm 1 w ->
  delete_products id w =
  (by_rows_affected None (rows_with_id id (products w)) "Deleted successfully",
   advance
     {| tables := with_products (tables (db w))
                    (filter (fun p => negb (has_id id p)) (products w));
        txn := txn (db w) |} w).
Proof.
  intros H1. unfold delete_products. rewrite (db_run_calm _ _ 0 w H1).
  change (snd (exec (DELETE_Products id) (db w)))
    with (ok 0 (rows_with_id id (products w))).
  cbn [err changes ok by_rows_affected].
  destruct (rows_with_id id (products w) =? 0); reflexivity.
Qed.

Lemma find_filter_other (id i : Z) (ps : list Product.row) :
  i <> id ->
  find (has_id i) (filter (fun p => negb (has_id id p)) ps) =
  find (has_id i) ps.
Proof.
  intros Hne. induction ps as [|p ps IH]; simpl; [reflexivity|].
  destruct (has_id id p) eqn:E; simpl.
  - assert (has_id i p = false) as ->; [|exact IH].
    unfold has_id in *. apply Z.eqb_eq in E. apply Z.eqb_neq. congruence.
  - destruct (has_id i p); [reflexivity | exact IH].
Qed.

Lemma find_filter_same (id : Z) (ps : list Product.row) :
  find (has_id id) (filter (fun p => negb (has_id id p)) ps) = None.
Proof.
  destruct (find _ _) as [p|] eqn:F; [|reflexivity].
  apply find_some in F. destruct F as [Hp Hid].
  apply filter_In in Hp. destruct Hp as [_ Hp]. rewrite Hid in Hp.
  discriminate.
Qed.

(** X12: once a deletion has gone through, no product is found under the id,
    every other product is found as before, and a second deletion or an
    update under the id is answered 404. *)
Theorem delete_then_gone (id : Z) (name : string) (price : Q)
  (quantity : Z) (category_id : option Z) (w : World) :
  calm 2 w ->
  let w' := after (delete_products id) w in
  product_of id (products w') = None /\
  (forall i, i <> id ->
             product_of i (products w') = product_of i (products w)) /\
  status (reply (delete_products id) w') = 404 /\
  status (reply (put_products id name price quantity category_id) w') = 404.
Proof.
  intros H2. cbv zeta.
  pose proof (calm_less _ _ H2) as H1.
  unfold after at 1 2 3 4. rewrite (delete_products_runs id w H1). cbn [snd].
  set (d := {| tables := _; txn := _ |}).
  pose proof (calm_advance 1 d w H2) as H1'.
  assert (Hps : products (advance d w) =
                filter (fun p => negb (has_id id p)) (products w))
    by reflexivity.
  assert (Hgone : product_of id (products (advance d w)) = None)
    by (rewrite Hps; apply find_filter_same).
  assert (Hn : rows_with_id id (products (advance d w)) = 0)
    by (apply rows_with_id_zero; unfold stock_of;
        unfold product_of in Hgone; now rewrite Hgone).
  split; [exact Hgone|]. split.
  - intros i Hi. rewrite Hps. now apply find_filter_other.
  - unfold reply.
    rewrite (delete_products_runs id _ H1'),
      (put_products_runs id _ _ _ _ _ H1'), Hn.
    split; reflexivity.
Qed.

Lemma delete_then_gone_witness :
  let w' := after (delete_products 1) (world shop) in
  product_of 1 (products w') = None /\
  (forall i, i <> 1 ->
             product_of i (products w') = product_of i (products (world shop))) /\
  status (reply (delete_products 1) w') = 404 /\
  status (reply (put_products 1 "Pen" (1 # 1) 3 None) w') = 404.
Proof.
  apply (delete_then_gone 1 "Pen" (1 # 1) 3 None (world shop)).
  unfold calm; simpl; constructor.
Defined.


(** ** More on the listings *)

(** The rows a product listing answers with. *)
Lemma get_products_rows (minPrice maxPrice minQty maxQty : option string)
  (w : World) :
  listed_rows (reply (get_products minPrice maxPrice minQty maxQty) w) =
  match hd None (faults w) with
  | Some _ => []
  | None =>
      select_products (fst (build_filter minPrice maxPrice minQty maxQty))
        (snd (build_filter minPrice maxPrice minQty maxQty))
        (tables (db w))
  end.
Proof.
  unfold reply, get_products.
  destruct (build_filter minPrice maxPrice minQty maxQty) as [cs vs].
  unfold bind, db_all, bind, next_fault.
  destruct (faults w) as [|[m|] fs]; reflexivity.
Qed.

Lemma listed_ids_rows (r : Response) :
  listed_ids r = map Listing.product_id (listed_rows r).
Proof. unfold listed_ids, listed_rows. now destruct (body r). Qed.

Lemma select_products_In (cs : list Clause) (vs : list JS.number)
  (t : Tables) (r : Listing.row) :
  In r (select_products cs vs t) ->
  In r (join t) /\ forallb (holds r) (combine cs vs) = true.
Proof.
  unfold select_products. intros H. apply order_by_In in H.
  now apply filter_In in H.
Qed.

(** X13: bounds only narrow a listing: every row listed under some bounds is
    listed when no bound is given. *)
Theorem bounds_only_narrow (minPrice maxPrice minQty maxQty : option string)
  (w : World) :
  incl (listed_rows (reply (get_products minPrice maxPrice minQty maxQty) w))
       (listed_rows (reply (get_products None None None None) w)).
Proof.
  rewrite !get_products_rows. intros r Hr.
  destruct (hd None (faults w)); [exact Hr|].
  apply select_products_In in Hr. destruct Hr as [Hr _].
  unfold select_products. apply order_by_In. apply filter_In.
  split; [exact Hr | reflexivity].
Qed.

Lemma listed_row_origin
  (minPrice maxPrice minQty maxQty : option string) (w : World)
  (r : Listing.row) :
  In r (listed_rows (reply (get_products minPrice maxPrice minQty maxQty) w)) ->
  exists p c,
    In p (products w) /\ In c (categories w) /\
    Product.category_id p = Some (Category.category_id c) /\
    r = joined p c.
Proof.
  rewrite get_products_rows. intros Hr.
  destruct (hd None (faults w)); [contradiction|].
  apply select_products_In in Hr. destruct Hr as [Hr _].
  now apply join_origin in Hr.
Qed.

(** X14: every listed row is a stored product with the name of the category
    its [category_id] points to. *)
Theorem listed_rows_are_joined
  (minPrice maxPrice minQty maxQty : option string) (w : World)
  (r : Listing.row) :
  In r (listed_rows (reply (get_products minPrice maxPrice minQty maxQty) w)) ->
  exists p c,
    In p (products w) /\ In c (categories w) /\
    Product.category_id p = Some (Category.category_id c) /\
    Listing.product_id r = Product.product_id p /\
    Listing.product_name r = Product.product_name p /\
    Listing.price r = Product.price p /\
    Listing.stock_quantity r = Product.stock_quantity p /\
    Listing.category_name r = Category.category_name c.
Proof.
  intros Hr. apply listed_row_origin in Hr.
  destruct Hr as (p & c & Hp & Hc & Hcat & ->).
  exists p, c. repeat split; assumption.
Qed.

Lemma listed_rows_are_joined_witness :
  exists p c,
    In p (products (world shop)) /\ In c (categories (world shop)) /\
    Product.category_id p = Some (Category.category_id c) /\
    Listing.product_id (joined (product 2 "Novel" (1450 # 100) 5 (Some 2))
                          (category 2 "Books")) = Product.product_id p /\
    Listing.product_name (joined (product 2 "Novel" (1450 # 100) 5 (Some 2))
                            (category 2 "Books")) = Product.product_name p /\
    Listing.price (joined (product 2 "Novel" (1450 # 100) 5 (Some 2))
                     (category 2 "Books")) = Product.price p /\
    Listing.stock_quantity (joined (product 2 "Novel" (1450 # 100) 5 (Some 2))
                              (category 2 "Books"))
    = Product.stock_quantity p /\
    Listing.category_name (joined (product 2 "Novel" (1450 # 100) 5 (Some 2))
                             (category 2 "Books")) = Category.category_name c.
Proof.
  apply (listed_rows_are_joined None None None (Some "7") (world shop)).
  vm_compute. left. reflexivity.
Defined.

Lemma categorized_join (t : Tables) (p : Product.row) :
  In p (Products t) -> categorized (Categories t) p = true ->
  In (Product.product_id p) (map Listing.product_id (join t)).
Proof.
  intros Hp Hc. unfold categorized in Hc. apply existsb_exists in Hc.
  destruct Hc as (c & Hc & Hon). apply in_map_iff.
  exists (joined p c). split; [reflexivity|].
  unfold join. apply in_flat_map. exists p. split; [exact Hp|].
  apply in_map. apply filter_In. now split.
Qed.

(** X15: whether a product is listed is a matter of its category: a product
    whose [category_id] matches no category (or is NULL) is in no
    listing, whatever the bounds; a product whose category exists is in
    the listing without bounds. *)
Theorem listed_iff_categorized (p : Product.row) (w : World) :
  calm 1 w -> primary_key (products w) -> In p (products w) ->
  (categorized (categories w) p = false ->
   forall minPrice maxPrice minQty maxQty,
     ~ In (Product.product_id p)
          (listed_ids
             (reply (get_products minPrice maxPrice minQty maxQty) w))) /\
  (categorized (categories w) p = true ->
   In (Product.product_id p)
      (listed_ids (reply (get_products None None None None) w))).
Proof.
  intros H1 Hpk Hp. split.
  - intros Hno a b c d Hin. rewrite listed_ids_rows in Hin.
    apply in_map_iff in Hin. destruct Hin as (r & Hid & Hr).
    apply listed_row_origin in Hr.
    destruct Hr as (p' & c' & Hp' & Hc' & Hcat & ->).
    assert (p' = p)
      by (apply (same_key_same_row (products w)); assumption).
    subst p'. unfold categorized in Hno.
    assert (Hyes : existsb (on_category p) (categories w) = true).
    { apply existsb_exists. exists c'. split; [exact Hc'|].
      unfold on_category. rewrite Hcat. apply Z.eqb_refl. }
    congruence.
  - intros Hyes. rewrite listed_ids_rows, get_products_rows.
    assert (F : hd None (faults w) = None).
    { unfold calm in H1. destruct (faults w) as [|f fs]; [reflexivity|].
      simpl in *. now inversion H1. }
    rewrite F. cbn [build_filter push_bound fst snd].
    pose proof (categorized_join (tables (db w)) p Hp Hyes) as Hj.
    apply in_map_iff in Hj. destruct Hj as (r & Hid & Hr).
    apply in_map_iff. exists r. split; [exact Hid|].
    unfold select_products. apply order_by_In, filter_In.
    split; [exact Hr | reflexivity].
Qed.

Lemma listed_iff_categorized_witness :
  (categorized (categories (world shop_with_loose_item))
     (product 3 "Apples" (99 # 100) 200 None) = false ->
   forall minPrice maxPrice minQty maxQty,
     ~ In (Product.product_id (product 3 "Apples" (99 # 100) 200 None))
          (listed_ids
             (reply (get_products minPrice maxPrice minQty maxQty)
                (world shop_with_loose_item)))) /\
  (categorized (categories (world shop_with_loose_item))
     (product 3 "Apples" (99 # 100) 200 None) = true ->
   In (Product.product_id (product 3 "Apples" (99 # 100) 200 None))
      (listed_ids (reply (get_products None None None None)
                     (world shop_with_loose_item)))).
Proof.
  apply (listed_iff_categorized (product 3 "Apples" (99 # 100) 200 None)
           (world shop_with_loose_item)).
  - unfold calm; simpl; constructor.
  - unfold primary_key; simpl. repeat constructor; simpl; intuition lia.
  - simpl. auto.
Defined.

Lemma at_most_one_category (cs : list Category.row) (p : Product.row) :
  NoDup (map Category.category_id cs) ->
  (List.length (filter (on_category p) cs) <= 1)%nat.
Proof.
  induction cs as [|c cs IH]; simpl; intros H; [lia|].
  inversion H as [|? ? Hnot Hnd]; subst.
  destruct (on_category p c) eqn:E; [|now apply IH].
  rewrite filter_none; [simpl; lia|].
  intros c' Hc'. unfold on_category in *.
  destruct (Product.category_id p) as [k|]; [|reflexivity].
  apply Z.eqb_eq in E. apply Z.eqb_neq. intros E'. apply Hnot.
  rewrite <- E, E'. now apply in_map.
Qed.

Lemma existsb_some_filtered {A} (f : A -> bool) (l : list A) :
  existsb f l = negb (Nat.eqb (List.length (filter f l)) 0).
Proof.
  induction l as [|x l IH]; simpl; [reflexivity|].
  destruct (f x); simpl; [reflexivity | exact IH].
Qed.

Lemma join_ids (t : Tables) :
  NoDup (map Category.category_id (Categories t)) ->
  map Listing.product_id (join t) =
  map Product.product_id (filter (categorized (Categories t)) (Products t)).
Proof.
  intros Hc. unfold join.
  induction (Products t) as [|p ps IH]; simpl; [reflexivity|].
  rewrite map_app, IH. clear IH.
  pose proof (at_most_one_category (Categories t) p Hc) as Hle.
  unfold categorized.
  rewrite existsb_some_filtered.
  destruct (filter (on_category p) (Categories t)) as [|c [|c' l]];
    simpl in *; [reflexivity | reflexivity | lia].
Qed.

(** X16: no product is listed twice, whatever the bounds; and the listing
    without bounds shows the products whose category exists, each once. *)
Theorem listing_shows_each_once
  (minPrice maxPrice minQty maxQty : option string) (w : World) :
  calm 1 w -> primary_key (products w) ->
  NoDup (map Category.category_id (categories w)) ->
  NoDup (listed_ids (reply (get_products minPrice maxPrice minQty maxQty) w)) /\
  Permutation
    (listed_ids (reply (get_products None None None None) w))
    (map Product.product_id
       (filter (categorized (categories w)) (products w))).
Proof.
  intros H1 Hpk Hc.
  assert (F : hd None (faults w) = None).
  { unfold calm in H1. destruct (faults w) as [|f fs]; [reflexivity|].
    simpl in *. now inversion H1. }
  rewrite !listed_ids_rows, !get_products_rows, F.
  assert (Hj : NoDup (map Listing.product_id (join (tables (db w))))).
  { rewrite (join_ids _ Hc). now apply NoDup_map_filter. }
  split.
  - unfold select_products.
    eapply Permutation_NoDup.
    + apply Permutation_map. apply Permutation_sym. apply order_by_perm.
    + now apply NoDup_map_filter.
  - cbn [build_filter push_bound fst snd]. unfold select_products.
    cbn [combine forallb].
    rewrite filter_all by reflexivity.
    unfold categories, products in *.
    rewrite <- (join_ids (tables (db w)) Hc).
    apply Permutation_map, order_by_perm.
Qed.

Lemma listing_shows_each_once_witness :
  NoDup (listed_ids (reply (get_products None None None (Some "7"))
                       (world shop_with_loose_item))) /\
  Permutation
    (listed_ids (reply (get_products None None None None)
                   (world shop_with_loose_item)))
    (map Product.product_id
       (filter (categorized (categories (world shop_with_loose_item)))
          (products (world shop_with_loose_item)))).
Proof.
  apply (listing_shows_each_once None None None (Some "7")
           (world shop_with_loose_item)).
  - unfold calm; simpl; constructor.
  - unfold primary_key; simpl. repeat constructor; simpl; intuition lia.
  - simpl. repeat constructor; simpl; intuition lia.
Defined.



(** ** More on categories *)

(** X18: a category created under a new name gets an id no category carries
    yet, and the next category listing shows it, with its id and name,
    among all the categories there were. *)
Theorem create_category_then_list (name : string) (w : World) :
  calm 2 w ->
  ~ In name (map Category.category_name (categories w)) ->
  let w' := after (createCategory name) w in
  exists id,
    reply (createCategory name) w =
    {| status := 201; body := id_name_json id name |} /\
    ~ In id (map Category.category_id (categories w)) /\
    In (category id name) (listed_categories (reply get_categories w')) /\
    incl (categories w) (listed_categories (reply get_categories w')).
Proof.
  intros H2 Hnew. cbv zeta.
  pose proof (calm_less _ _ H2) as H1.
  exists (next_rowid (seq_Categories (tables (db w)))
            (map Category.category_id (categories w))).
  assert (E : createCategory name w =
              ({| status := 201;
                  body := id_name_json
                            (next_rowid (seq_Categories (tables (db w)))
                               (map Category.category_id (categories w)))
                            name |},
               advance (fst (exec (INSERT_Categories name) (db w))) w)).
  { unfold createCategory. rewrite (db_run_calm _ _ 0 w H1).
    unfold exec, exec_dml.
    destruct (existsb _ _) eqn:Ex; [|reflexivity].
    apply name_taken in Ex. contradiction. }
  unfold reply, after. rewrite E. cbn [fst snd].
  split; [reflexivity|]. split; [apply next_rowid_fresh|].
  set (w1 := advance _ w).
  assert (H1' : calm 1 w1) by apply (calm_advance 1 _ w H2).
  assert (Hcs : categories w1 =
                (categories w ++
                 [category (next_rowid (seq_Categories (tables (db w)))
                              (map Category.category_id (categories w)))
                    name])%list).
  { subst w1. unfold categories, advance, exec, exec_dml. cbn [db].
    destruct (existsb _ _) eqn:Ex; [|reflexivity].
    apply name_taken in Ex. contradiction. }
  assert (L : listed_categories (fst (get_categories w1)) =
              select_categories (tables (db w1))).
  { unfold get_categories. now rewrite (db_all_calm _ _ 0 w1 H1'). }
  rewrite L. unfold select_categories. fold (categories w1). rewrite Hcs.
  split.
  - apply order_by_In. apply in_or_app. right. now left.
  - intros c Hc. apply order_by_In. apply in_or_app. now left.
Qed.

Lemma create_category_then_list_witness :
  let w' := after (createCategory "Toys") (world shop) in
  exists id,
    reply (createCategory "Toys") (world shop) =
    {| status := 201; body := id_name_json id "Toys" |} /\
    ~ In id (map Category.category_id (categories (world shop))) /\
    In (category id "Toys") (listed_categories (reply get_categories w')) /\
    incl (categories (world shop))
         (listed_categories (reply get_categories w')).
Proof.
  apply (create_category_then_list "Toys" (world shop)).
  - unfold calm; simpl; constructor.
  - simpl. intuition discriminate.
Defined.


(** ** Start-up *)

(** A schema statement on a file that has both tables cannot fail in the
    store's hands and leaves the rows alone. *)
Lemma exec_setup_schema (s : Setup) (f : File) :
  creates_schema s -> has_tables f ->
  snd (exec_setup s f) = None /\
  data (fst (exec_setup s f)) = data f /\
  has_tables (fst (exec_setup s f)).
Proof.
  unfold has_tables. intros Hs [Hc Hp].
  destruct s; try contradiction; unfold exec_setup;
    rewrite ?Hc, ?Hp; cbn; auto.
Qed.

Lemma run_setup_schema (s : Setup) (label : string) (b : Boot) :
  creates_schema s -> has_tables (file b) ->
  let b' := run_setup s label b in
  has_tables (file b') /\ data (file b') = data (file b) /\
  pending b' = tl (pending b) /\
  console b' = (console b ++ ifExists (hd None (pending b)) label)%list.
Proof.
  intros Hs Ht. cbv zeta. unfold run_setup.
  destruct (exec_setup_schema s (file b) Hs Ht) as (He & Hd & Ht').
  destruct (pending b) as [|[m|] rest]; cbn [hd tl];
    try (destruct (exec_setup s (file b)) as [f e]; cbn [fst snd] in *;
         subst e; cbn; auto).
Qed.

(** X19: start-up creates schema objects and nothing else: on a file that has
    both tables it leaves every row and both counters as they are,
    whichever statements the store fails. *)
Theorem initialize_keeps_rows (b : Boot) :
  has_tables (file b) ->
  data (file (initialize b)) = data (file b) /\
  has_tables (file (initialize b)).
Proof.
  intros Ht. unfold initialize.
  assert (Ht0 : has_tables (file (log "Initializing database." b))) by exact Ht.
  destruct (run_setup_schema CREATE_TABLE_Categories "Categories" _ I Ht0)
    as (Ht1 & Hd1 & _).
  destruct (run_setup_schema CREATE_TABLE_Products "Products" _ I Ht1)
    as (Ht2 & Hd2 & _).
  destruct (run_setup_schema CREATE_INDEX_product_name
              "Index on Products(product_name)" _ I Ht2) as (Ht3 & Hd3 & _).
  destruct (run_setup_schema CREATE_INDEX_price_qty
              "Index on Products(price, stock_quantity)" _ I Ht3)
    as (Ht4 & Hd4 & _).
  split; [|exact Ht4]. rewrite Hd4, Hd3, Hd2, Hd1. reflexivity.
Qed.

Lemma initialize_keeps_rows_witness :
  let b := {| file := {| schema := {| has_Categories := true;
                                      has_Products := true;
                                      has_idx_product_name := false;
                                      has_idx_price_qty := false |};
                         data := shop |};
              pending := [None; Some "SQLITE_IOERR: disk I/O error"];
              console := [] |} in
  data (file (initialize b)) = data (file b) /\
  has_tables (file (initialize b)).
Proof.
  apply (initialize_keeps_rows
           {| file := {| schema := {| has_Categories := true;
                                      has_Products := true;
                                      has_idx_product_name := false;
                                      has_idx_price_qty := false |};
                         data := shop |};
              pending := [None; Some "SQLITE_IOERR: disk I/O error"];
              console := [] |}).
  split; reflexivity.
Defined.

(** X20: an undisturbed start-up on any file leaves all four schema objects in
    place and writes no error line; a second one finds nothing to do and
    leaves the file as the first left it. *)
Theorem initialize_idempotent (f : File) :
  let b1 := initialize (boot f) in
  schema (file b1) =
  {| has_Categories := true; has_Products := true;
     has_idx_product_name := true; has_idx_price_qty := true |} /\
  filter is_error (console b1) = [] /\
  file (initialize (boot (file b1))) = file b1.
Proof.
  destruct f as [[c p i j] t].
  destruct c, p, i, j; cbv zeta; repeat split.
Qed.

(** X21: a statement the store fails does not stop start-up: all four
    statements are attempted whatever happens, and each table is created
    whenever its own statement is not failed. *)
Theorem initialize_carries_on (b : Boot) :
  pending (initialize b) = skipn 4 (pending b) /\
  (nth 0 (pending b) None = None ->
   has_Categories (schema (file (initialize b))) = true) /\
  (nth 1 (pending b) None = None ->
   has_Products (schema (file (initialize b))) = true).
Proof.
  destruct b as [[[c p i j] t] fs l].
  destruct fs as [|[m0|] [|[m1|] [|[m2|] [|[m3|] fs]]]];
    destruct c, p, i, j; cbn; repeat split; intros; congruence.
Qed.

(** *** The demo data of [server.js] *)

Lemma or_ignore_category_taken (t : Tables) (name : string) :
  In name (map Category.category_name (Categories t)) ->
  or_ignore_category t name = t.
Proof.
  intros H. unfold or_ignore_category, exec_dml.
  apply name_taken in H. now rewrite H.
Qed.

Lemma or_ignore_category_effect (t : Tables) (name : string) :
  let t' := or_ignore_category t name in
  Products t' = Products t /\ seq_Products t' = seq_Products t /\
  In name (map Category.category_name (Categories t')) /\
  (exists more, Categories t' = (Categories t ++ more)%list) /\
  (unique_names (Categories t) -> unique_names (Categories t')).
Proof.
  cbv zeta. unfold or_ignore_category, exec_dml.
  destruct (existsb _ _) eqn:E; cbn [fst Products Categories seq_Products].
  - apply name_taken in E.
    split; [reflexivity|]. split; [reflexivity|]. split; [exact E|].
    split; [|tauto]. exists []. now rewrite app_nil_r.
  - split; [reflexivity|]. split; [reflexivity|]. split; [|split].
    + rewrite map_app. apply in_or_app. right. now left.
    + eexists. reflexivity.
    + unfold unique_names. intros H. rewrite map_app.
      apply NoDup_snoc; [exact H|].
      cbn [map Category.category_name]. intros Hin.
      apply name_taken in Hin. congruence.
Qed.

Lemma seed_categories_effect (names : list string) (t : Tables) :
  let t' := fold_left or_ignore_category names t in
  Products t' = Products t /\ seq_Products t' = seq_Products t /\
  (forall name, In name names \/
                In name (map Category.category_name (Categories t)) ->
                In name (map Category.category_name (Categories t'))) /\
  (exists more, Categories t' = (Categories t ++ more)%list) /\
  (unique_names (Categories t) -> unique_names (Categories t')).
Proof.
  cbv zeta. revert t.
  induction names as [|n names IH]; intros t; cbn [fold_left].
  - split; [reflexivity|]. split; [reflexivity|]. split; [|split; [|tauto]].
    + intros name [[]|H]; exact H.
    + exists []. now rewrite app_nil_r.
  - destruct (or_ignore_category_effect t n) as (Hp & Hs & Hin & [m Hm] & Hu).
    destruct (IH (or_ignore_category t n)) as (Hp' & Hs' & Hin' & [m' Hm'] & Hu').
    split; [congruence|]. split; [congruence|]. split; [|split].
    + intros name [[<-|H]|H]; apply Hin'.
      * now right.
      * now left.
      * right. rewrite Hm, map_app. apply in_or_app. now left.
    + exists (m ++ m')%list. rewrite Hm', Hm. now rewrite app_assoc.
    + intros H. apply Hu', Hu, H.
Qed.

Lemma seed_categories_again (names : list string) (t : Tables) :
  (forall name, In name names ->
                In name (map Category.category_name (Categories t))) ->
  fold_left or_ignore_category names t = t.
Proof.
  induction names as [|n names IH]; intros H; cbn [fold_left]; [reflexivity|].
  rewrite or_ignore_category_taken by (apply H; now left).
  apply IH. intros name Hn. apply H. now right.
Qed.

Lemma seed_products_effect (rows : list Seed) (t : Tables) :
  let t' := fold_left or_ignore_product rows t in
  Categories t' = Categories t /\
  List.length (Products t') = (List.length (Products t) + List.length rows)%nat /\
  (exists more, Products t' = (Products t ++ more)%list /\
                map (fun p => (Product.product_name p, Product.price p,
                               Product.stock_quantity p,
                               Product.category_id p)) more = rows).
Proof.
  cbv zeta. revert t.
  induction rows as [|[[[n p] q] c] rows IH]; intros t; cbn [fold_left].
  - repeat split; [simpl; lia|]. exists []. now rewrite app_nil_r.
  - destruct (IH (or_ignore_product t (n, p, q, c))) as (Hc & Hl & more & Hm & Hr).
    unfold or_ignore_product in *. cbn [exec_dml fst Categories Products] in *.
    repeat split.
    + exact Hc.
    + rewrite Hl, length_app. simpl. lia.
    + eexists. split; [rewrite Hm, <- app_assoc; reflexivity|].
      cbn [map Product.product_name Product.price Product.stock_quantity
           Product.category_id app]. now rewrite Hr.
Qed.

(** The tables one start of [server.js] leaves, on a file that has both
    tables. *)
Lemma restart_data (f : File) :
  has_tables f ->
  data (restart f) =
  fold_left or_ignore_product seedProducts
    (fold_left or_ignore_category seedCategories (data f)) /\
  has_tables (restart f).
Proof.
  destruct f as [[c p i j] t]. unfold has_tables. cbn [schema has_Categories
    has_Products]. intros [-> ->].
  split; [reflexivity | split; reflexivity].
Qed.

(** X23: every start of [server.js] adds the three demo products again:
    [Products] has no constraint an insert could trip on, so nothing is
    ever ignored, and after [n] starts the table holds [3 n] rows more,
    the earlier rows untouched. *)
Theorem seeded_products_pile_up (f : File) (n : nat) :
  has_tables f ->
  List.length (Products (data (Nat.iter n restart f))) =
  (List.length (Products (data f)) + 3 * n)%nat /\
  (exists more,
     Products (data (Nat.iter n restart f)) = (Products (data f) ++ more)%list).
Proof.
  intros Ht.
  assert (G : has_tables (Nat.iter n restart f) /\
              List.length (Products (data (Nat.iter n restart f))) =
              (List.length (Products (data f)) + 3 * n)%nat /\
              (exists more,
                 Products (data (Nat.iter n restart f)) =
                 (Products (data f) ++ more)%list)).
  { induction n as [|n (Ht' & Hl & more & Hm)]; simpl Nat.iter.
    - split; [exact Ht|]. split; [lia|]. exists []. now rewrite app_nil_r.
    - destruct (restart_data _ Ht') as [Hd Ht'']. split; [exact Ht''|].
      rewrite Hd.
      destruct (seed_products_effect seedProducts
                  (fold_left or_ignore_category seedCategories
                     (data (Nat.iter n restart f))))
        as (_ & Hl' & more' & Hm' & _).
      destruct (seed_categories_effect seedCategories
                  (data (Nat.iter n restart f))) as (Hp & _).
      cbv zeta in *. rewrite Hl', Hm', Hp, Hl, Hm. split; [simpl; lia|].
      exists (more ++ more')%list. now rewrite app_assoc. }
  tauto.
Qed.

Lemma seeded_products_pile_up_witness :
  List.length (Products (data (Nat.iter 2 restart (restart blank)))) =
  (List.length (Products (data (restart blank))) + 3 * 2)%nat /\
  (exists more,
     Products (data (Nat.iter 2 restart (restart blank))) =
     (Products (data (restart blank)) ++ more)%list).
Proof.
  apply (seeded_products_pile_up (restart blank) 2).
  split; reflexivity.
Defined.

(** X24: the demo categories, by contrast, settle: after a start each of the
    three names is there exactly once, the categories there were are
    kept, and a further start adds no category. *)
Theorem seeded_categories_settle (f : File) :
  has_tables f -> unique_names (Categories (data f)) ->
  let f1 := restart f in
  (forall name, In name seedCategories ->
     count_occ string_dec
       (map Category.category_name (Categories (data f1))) name = 1%nat) /\
  (exists more, Categories (data f1) = (Categories (data f) ++ more)%list) /\
  Categories (data (restart f1)) = Categories (data f1).
Proof.
  intros Ht Hu. cbv zeta.
  destruct (restart_data f Ht) as [Hd Ht1].
  destruct (restart_data (restart f) Ht1) as [Hd2 _].
  destruct (seed_categories_effect seedCategories (data f))
    as (_ & _ & Hin & Hmore & Huniq).
  destruct (seed_products_effect seedProducts
              (fold_left or_ignore_category seedCategories (data f)))
    as (Hc & _).
  cbv zeta in *.
  assert (Hcats : Categories (data (restart f)) =
                  Categories (fold_left or_ignore_category seedCategories
                                (data f)))
    by (rewrite Hd; exact Hc).
  split; [|split].
  - intros name Hn. rewrite Hcats.
    apply NoDup_count_occ'; [apply Huniq, Hu | apply Hin; now left].
  - rewrite Hcats. exact Hmore.
  - rewrite Hd2.
    destruct (seed_products_effect seedProducts
                (fold_left or_ignore_category seedCategories
                   (data (restart f)))) as (Hc2 & _).
    cbv zeta in Hc2. rewrite Hc2.
    rewrite seed_categories_again; [reflexivity|].
    intros name Hn. rewrite Hcats. apply Hin. now left.
Qed.

Lemma seeded_categories_settle_witness :
  let f1 := restart (restart blank) in
  (forall name, In name seedCategories ->
     count_occ string_dec
       (map Category.category_name (Categories (data f1))) name = 1%nat) /\
  (exists more,
     Categories (data f1) = (Categories (data (restart blank)) ++ more)%list) /\
  Categories (data (restart f1)) = Categories (data f1).
Proof.
  apply (seeded_categories_settle (restart blank)).
  - split; reflexivity.
  - unfold unique_names. simpl.
    repeat constructor; simpl; intuition discriminate.
Defined.

Lemma ifExists_error (e : option string) (label m : string) :
  In (console_error m) (ifExists e label) <->
  e = Some m /\ JS.includes m "already exists" = false.
Proof.
  unfold ifExists. destruct e as [m'|].
  - destruct (JS.includes m' "already exists") eqn:E; simpl.
    + split; [tauto|]. intros [[= ->] H]. congruence.
    + split.
      * intros [[= ->]|[]]. now split.
      * intros [[= ->] _]. now left.
  - simpl. split; [intros [H|[]]; discriminate | intros [H _]; discriminate].
Qed.

Lemma among_first_four {A} (x : A) (l : list (option A)) :
  In (Some x) (firstn 4 l) <->
  hd None l = Some x \/ hd None (tl l) = Some x \/
  hd None (tl (tl l)) = Some x \/ hd None (tl (tl (tl l))) = Some x.
Proof.
  destruct l as [|a [|b [|c [|d l]]]]; simpl; intuition congruence.
Qed.

(** X22: what start-up writes to [console.error], on a file that has both
    tables: the message of every statement the store failed, unless the
    message says "already exists" - and nothing else. *)
Theorem initialize_reports_errors (b : Boot) (m : string) :
  has_tables (file b) ->
  (In (console_error m) (console (initialize b)) <->
   In (console_error m) (console b) \/
   (In (Some m) (firstn 4 (pending b)) /\
    JS.includes m "already exists" = false)).
Proof.
  intros Ht. unfold initialize.
  set (b0 := log "Initializing database." b).
  assert (Ht0 : has_tables (file b0)) by exact Ht.
  destruct (run_setup_schema CREATE_TABLE_Categories "Categories" b0 I Ht0)
    as (Ht1 & _ & Hp1 & Hc1).
  set (b1 := run_setup CREATE_TABLE_Categories "Categories" b0) in *.
  destruct (run_setup_schema CREATE_TABLE_Products "Products" b1 I Ht1)
    as (Ht2 & _ & Hp2 & Hc2).
  set (b2 := run_setup CREATE_TABLE_Products "Products" b1) in *.
  destruct (run_setup_schema CREATE_INDEX_product_name
              "Index on Products(product_name)" b2 I Ht2)
    as (Ht3 & _ & Hp3 & Hc3).
  set (b3 := run_setup CREATE_INDEX_product_name
               "Index on Products(product_name)" b2) in *.
  destruct (run_setup_schema CREATE_INDEX_price_qty
              "Index on Products(price, stock_quantity)" b3 I Ht3)
    as (_ & _ & _ & Hc4).
  cbv zeta in *. rewrite Hc4, Hc3, Hc2, Hc1, Hp3, Hp2, Hp1.
  change (pending b0) with (pending b).
  change (console b0) with (console b ++ [console_log "Initializing database."])%list.
  rewrite !in_app_iff, !ifExists_error, among_first_four.
  simpl. intuition discriminate.
Qed.

Lemma initialize_reports_errors_witness :
  let b := {| file := restart blank;
              pending := [Some "SQLITE_ERROR: index idx already exists";
                          Some "SQLITE_IOERR: disk I/O error"];
              console := [] |} in
  In (console_error "SQLITE_IOERR: disk I/O error") (console (initialize b)) <->
  In (console_error "SQLITE_IOERR: disk I/O error") (console b) \/
  (In (Some "SQLITE_IOERR: disk I/O error") (firstn 4 (pending b)) /\
   JS.includes "SQLITE_IOERR: disk I/O error" "already exists" = false).
Proof.
  apply (initialize_reports_errors
           {| file := restart blank;
              pending := [Some "SQLITE_ERROR: index idx already exists";
                          Some "SQLITE_IOERR: disk I/O error"];
              console := [] |} "SQLITE_IOERR: disk I/O error").
  split; reflexivity.
Defined.

(** *** Scenarios *)

(** A first start of [server.js] on an empty file: three categories,
    three products, all listed under their category. *)
Example scenario_first_start :
  map Category.category_name (categories (serving (restart blank)))
  = ["Electronics"; "Books"; "Groceries"] /\
  map (fun r => (Listing.product_name r, Listing.category_name r))
      (listed_rows (reply (get_products None None None None)
                      (serving (restart blank))))
  = [("Apples", "Groceries"); ("Laptop", "Electronics");
     ("Science Fiction Novel", "Books")] /\
  console (initialize_seeded (boot blank))
  = [console_log "Initializing database.";
     console_log "Table/Data 'Categories' is ready.";
     console_log "Table/Data 'Products' is ready.";
     console_log "Table/Data 'Seeded Categories' is ready.";
     console_log "Table/Data 'Seeded Products' is ready."].
Proof. repeat split. Qed.

(** A second start: still three categories, but six products. *)
Example scenario_second_start :
  map Category.category_name (categories (serving (restart (restart blank))))
  = ["Electronics"; "Books"; "Groceries"] /\
  map Listing.product_name
      (listed_rows (reply (get_products None None None None)
                      (serving (restart (restart blank)))))
  = ["Apples"; "Apples"; "Laptop"; "Laptop";
     "Science Fiction Novel"; "Science Fiction Novel"].
Proof. repeat split. Qed.

(** A start of the server on an empty file whose first statement the store
    fails: the error is written out, [Products] and its indexes are
    created all the same, [Categories] is not. *)
Example scenario_failed_create :
  let b := initialize {| file := blank;
                         pending := [Some "SQLITE_IOERR: disk I/O error"];
                         console := [] |} in
  schema (file b) =
  {| has_Categories := false; has_Products := true;
     has_idx_product_name := true; has_idx_price_qty := true |} /\
  filter is_error (console b) = [console_error "SQLITE_IOERR: disk I/O error"].
Proof. repeat split. Qed.

Lemma initialize_carries_on_witness :
  let b := {| file := blank;
              pending := [Some "SQLITE_IOERR: disk I/O error"; None];
              console := [] |} in
  pending (initialize b) = skipn 4 (pending b) /\
  has_Products (schema (file (initialize b))) = true.
Proof.
  cbv zeta.
  destruct (initialize_carries_on
              {| file := blank;
                 pending := [Some "SQLITE_IOERR: disk I/O error"; None];
                 console := [] |}) as (Hp & _ & Hprod).
  split; [exact Hp | apply Hprod; reflexivity].
Defined.

(** ** Transactions, once more *)

Lemma idle_kept_witness :
  idle (after (handle (POST_inventory_adjust 1 999 1)) (world shop)).
Proof.
  apply (idle_kept (POST_inventory_adjust 1 999 1) (world shop)).
  - reflexivity.
  - unfold calm; simpl; constructor.
Defined.
